(** * ml-nearest-neighbor: the [DataSet] class of [src/datasets/data_set.py]
    and the [EditedKNN] class of [src/algorithms/edited_knn.py]

    A shallow embedding of the Python code, and the properties of the
    specification that it has or fails to have.

    - A field of a row is a Python [str], [int] or [float].  The two numeric
      types are modelled by the real numbers: the arithmetic is exact, and
      rounding, overflow, infinities and NaN are outside the model.  The
      floats that only position a cut in the row list (the fraction of
      [partition], the average section size of [validation_folds]) are exact
      rationals, so that the cuts compute.  In binary64 a product
      [avg_size * i] can fall just below an integer that the exact product
      reaches, which moves that cut by one row; [float_cut] runs the cuts on
      binary64 floats where a scenario needs them.
    - A row is a mutable Python list that several data sets can hold at once:
      a data set holds references into a store of row objects, and the
      methods that assign to [row[col]] transform the store.  The list of row
      references and the list of attribute columns of a data set are values.
    - A Python exception is a [Raise] result.  The store that a method has
      written to before it raises is not modelled.
    - Column indices are natural numbers, as every caller in the repository
      passes them; the wrap-around of negative list indices is modelled for
      slices only. *)

From Stdlib Require Import Reals QArith Qround Lra Lia Permutation String.
From Stdlib Require Floats Uint63.
From stdpp Require Import gmap list strings.

(** ** Python values and exceptions *)

Inductive value :=
  | VNum (x : R)
  | VStr (s : string).

Abbreviation row := (list value).

#[global] Instance R_eq_dec : EqDecision R := Req_dec_T.

#[global] Instance value_eq_dec : EqDecision value.
Proof. solve_decision. Defined.

Inductive exn :=
  | TypeError
  | IndexError
  | ZeroDivisionError
  | ValueError
  | Unallocated. (* a reference the store does not hold; no Python program reaches it *)

Inductive result (A : Type) :=
  | Ok (a : A)
  | Raise (e : exn).

Arguments Ok {A} a.
Arguments Raise {A} e.

Definition bind {A B} (m : result A) (k : A -> result B) : result B :=
  match m with
  | Ok a => k a
  | Raise e => Raise e
  end.

Notation "x <- m ;; k" := (bind m (fun x => k))
  (at level 100, m at next level, right associativity).

(** [for x in l: s = f(s, x)], stopping at the first exception. *)
Fixpoint for_each {A S} (f : S -> A -> result S) (l : list A) (s : S) : result S :=
  match l with
  | [] => Ok s
  | x :: l' => s' <- f s x ;; for_each f l' s'
  end.

(** [isinstance(v, str)] *)
Definition is_str (v : value) : bool :=
  match v with
  | VStr _ => true
  | VNum _ => false
  end.

(** [r[c]] *)
Definition getitem {A} (r : list A) (c : nat) : result A :=
  match r !! c with
  | Some v => Ok v
  | None => Raise IndexError
  end.

(** [x - y]: defined on two numbers only. *)
Definition py_sub (x y : value) : result R :=
  match x, y with
  | VNum x, VNum y => Ok (x - y)%R
  | _, _ => Raise TypeError
  end.

(** [acc + v] for a numeric accumulator [acc]. *)
Definition py_add (acc : R) (v : value) : result R :=
  match v with
  | VNum x => Ok (acc + x)%R
  | VStr _ => Raise TypeError
  end.

(** [x != y]: a string and a number are never equal. *)
Definition py_ne (x y : value) : bool :=
  match x, y with
  | VNum x, VNum y => if Req_dec_T x y then false else true
  | VStr s, VStr t => negb (String.eqb s t)
  | _, _ => true
  end.

(** [x / y] *)
Definition py_div (x y : R) : result R :=
  if Req_dec_T y 0 then Raise ZeroDivisionError else Ok (x / y)%R.

(** [r[c] = v] *)
Definition setitem {A} (r : list A) (c : nat) (v : A) : result (list A) :=
  if decide (c < length r) then Ok (<[c := v]> r) else Raise IndexError.

(** [math.sqrt(x)] *)
Definition math_sqrt (x : R) : result R :=
  if Rlt_dec x 0 then Raise ValueError else Ok (sqrt x).

(** The position that the bound [i] of a slice denotes in a list of [len]
    elements: a negative bound counts from the end, and bounds are clipped
    to the list. *)
Definition slice_bound (len : nat) (i : Z) : nat :=
  if (i <? 0)%Z then Z.to_nat (Z.max 0 (Z.of_nat len + i))
  else Z.to_nat (Z.min i (Z.of_nat len)).

(** [l[lo:hi]] *)
Definition slice {A} (l : list A) (lo hi : Z) : list A :=
  take (slice_bound (length l) hi - slice_bound (length l) lo)
       (drop (slice_bound (length l) lo) l).

(** [l[lo:]] *)
Definition slice_from {A} (l : list A) (lo : Z) : list A :=
  drop (slice_bound (length l) lo) l.

(** [l[:hi]] *)
Definition slice_to {A} (l : list A) (hi : Z) : list A :=
  take (slice_bound (length l) hi) l.

(** [len(l)] *)
Definition len {A} (l : list A) : Z := Z.of_nat (length l).

(** ** The store of row objects and the [DataSet] object *)

Abbreviation loc := nat.
Abbreviation store := (gmap nat row).

Definition deref (st : store) (l : loc) : result row :=
  match st !! l with
  | Some r => Ok r
  | None => Raise Unallocated
  end.

Record DataSet := mkDataSet {
  data : list loc;
  class_col : nat;
  attr_cols : list nat;
  filename : string
}.

(** ** [get_str_attr_cols] and [distance] ([data_set.py], lines 43-62) *)

Definition get_str_attr_cols_step (self : DataSet) (st : store)
    (str_attr_cols : list nat) (attr_col : nat) : result (list nat) :=
  l0 <- getitem (data self) 0 ;;
  r0 <- deref st l0 ;;
  v <- getitem r0 attr_col ;;
  Ok (if is_str v then str_attr_cols ++ [attr_col] else str_attr_cols).

Definition get_str_attr_cols (self : DataSet) (st : store) : result (list nat) :=
  for_each (get_str_attr_cols_step self st) (attr_cols self) [].

Definition distance_step (str_attr_cols : list nat) (a b : row)
    (sum : R) (attr_col : nat) : result R :=
  if bool_decide (attr_col ∈ str_attr_cols) then
    x <- getitem a attr_col ;;
    y <- getitem b attr_col ;;
    Ok (sum + (if py_ne x y then 1 else 0))%R
  else
    x <- getitem a attr_col ;;
    y <- getitem b attr_col ;;
    d <- py_sub x y ;;
    Ok (sum + d ^ 2)%R.

Definition distance (self : DataSet) (st : store) (a b : row) : result R :=
  str_attr_cols <- get_str_attr_cols self st ;;
  sum <- for_each (distance_step str_attr_cols a b) (attr_cols self) 0%R ;;
  math_sqrt sum.

(** ** The distance of the specification

    A schema gives every column its kind.  The schema of a data set is read
    off its first row; a row has a schema when its fields have these kinds,
    column by column. *)

Inductive kind := Numeric | Categorical.

#[global] Instance kind_eq_dec : EqDecision kind.
Proof. solve_decision. Defined.

Definition kind_of (v : value) : kind :=
  match v with
  | VNum _ => Numeric
  | VStr _ => Categorical
  end.

Definition first_row (self : DataSet) (st : store) : option row :=
  match data self with
  | [] => None
  | l0 :: _ => st !! l0
  end.

Definition schema (self : DataSet) (st : store) : option (list kind) :=
  match first_row self st with
  | Some r0 => Some (map kind_of r0)
  | None => None
  end.

Definition has_schema (sch : list kind) (r : row) : Prop :=
  map kind_of r = sch.

Definition valid_cols (sch : list kind) (cols : list nat) : Prop :=
  Forall (fun c => c < length sch) cols.

(** The number in a field, for a numeric column. *)
Definition num_at (r : row) (c : nat) : R :=
  match r !! c with
  | Some (VNum x) => x
  | _ => 0%R
  end.

Definition disagreement (sch : list kind) (a b : row) (c : nat) : R :=
  match sch !! c with
  | Some Categorical => if decide (a !! c = b !! c) then 0%R else 1%R
  | _ => ((num_at a c - num_at b c) ^ 2)%R
  end.

(** The categorical columns, as the schema names them. *)
Definition categorical_cols (sch : list kind) (cols : list nat) : list nat :=
  filter (fun c => sch !! c = Some Categorical) cols.

Definition Rsum (l : list R) : R := fold_right Rplus 0%R l.

Definition spec_distance (sch : list kind) (cols : list nat) (a b : row) : R :=
  sqrt (Rsum (map (disagreement sch a b) cols)).

(** ** [normalize_z_score] ([data_set.py], lines 87-108) *)

Definition col_sum_step (st : store) (col : nat) (col_sum : R) (l : loc) : result R :=
  row <- deref st l ;;
  v <- getitem row col ;;
  py_add col_sum v.

Definition square_diff_step (st : store) (col : nat) (mean : R)
    (sum_square_diffs : R) (l : loc) : result R :=
  row <- deref st l ;;
  v <- getitem row col ;;
  d <- py_sub (VNum mean) v ;;
  Ok (sum_square_diffs + d ^ 2)%R.

Definition z_score_step (col : nat) (mean standard_deviation : R)
    (st : store) (l : loc) : result store :=
  row <- deref st l ;;
  z_score <-
    (if Req_dec_T standard_deviation 0 then Ok 0%R
     else
       v <- getitem row col ;;
       d <- py_sub v (VNum mean) ;;
       py_div d standard_deviation) ;;
  row' <- setitem row col (VNum z_score) ;;
  Ok (<[l := row']> st).

Definition normalize_col (self : DataSet) (st : store) (col : nat) : result store :=
  col_sum <- for_each (col_sum_step st col) (data self) 0%R ;;
  mean <- py_div col_sum (INR (length (data self))) ;;
  sum_square_diffs <- for_each (square_diff_step st col mean) (data self) 0%R ;;
  standard_deviation <- math_sqrt sum_square_diffs ;;
  for_each (z_score_step col mean standard_deviation) (data self) st.

Definition normalize_z_score (self : DataSet) (cols : list nat) (st : store)
  : result store :=
  for_each (normalize_col self) cols st.

(** The z-score of the specification.  [column] lists the numbers that the
    rows of the data set hold in a column. *)
Definition column (self : DataSet) (st : store) (col : nat) : list R :=
  map (fun l => num_at (default [] (st !! l)) col) (data self).

Definition mean (xs : list R) : R := (Rsum xs / INR (length xs))%R.

Definition spread (xs : list R) : R :=
  sqrt (Rsum (map (fun x => (x - mean xs) ^ 2)%R xs)).

Definition z_score (xs : list R) (x : R) : R :=
  if Req_dec_T (spread xs) 0 then 0%R else ((x - mean xs) / spread xs)%R.

(** Every row of the data set is in the store and holds a number in each of
    the listed columns. *)
Definition numeric_cols (self : DataSet) (st : store) (cols : list nat) : Prop :=
  Forall (fun l => exists r, st !! l = Some r /\
            Forall (fun c => exists x, r !! c = Some (VNum x)) cols)
         (data self).

(** What one pass of the third loop does to a row, and to the rows [ls]. *)
Definition z_row (col : nat) (mean standard_deviation : R) (r : row) : row :=
  <[col := VNum (if Req_dec_T standard_deviation 0 then 0
                 else (num_at r col - mean) / standard_deviation)%R]> r.

Fixpoint update_rows (f : row -> row) (ls : list loc) (st : store) : store :=
  match ls with
  | [] => st
  | l :: ls' => update_rows f ls' (alter f l st)
  end.

(** ** [copy] and [convert_to_float] ([data_set.py], lines 34-35 and 77-82) *)

(** The copy of a list is a new list of the same elements: the copy of a
    data set holds the same row objects. *)
Definition copy (self : DataSet) : DataSet :=
  mkDataSet (data self) (class_col self) (attr_cols self) (filename self).

Section Conversion.

(** [float(s)] for a string [s], a built-in of Python: [None] stands for
    the [ValueError] of a string that is no number. *)
Variable float_of_str : string -> option R.

(** [float(v)] *)
Definition py_float (v : value) : result value :=
  match v with
  | VNum x => Ok (VNum x)
  | VStr s =>
      match float_of_str s with
      | Some x => Ok (VNum x)
      | None => Raise ValueError
      end
  end.

Definition convert_field (cols : list nat) (line : row) (i : nat) : result row :=
  if bool_decide (i ∉ cols) then Ok line
  else
    v <- getitem line i ;;
    v' <- py_float v ;;
    setitem line i v'.

Definition convert_line (cols : list nat) (st : store) (l : loc) : result store :=
  line <- deref st l ;;
  line' <- for_each (convert_field cols) (seq 0 (length line)) line ;;
  Ok (<[l := line']> st).

Definition convert_to_float (self : DataSet) (cols : list nat) (st : store)
  : result store :=
  for_each (convert_line cols) (data self) st.

End Conversion.

(** A reader of decimal digits: it agrees with [float] on the strings of
    ASCII digits, which is all that the examples convert. *)
Definition digit_of (c : Ascii.ascii) : option nat :=
  let n := Ascii.nat_of_ascii c in
  if bool_decide (48 <= n <= 57) then Some (n - 48) else None.

Fixpoint digits_value (acc : nat) (s : string) : option nat :=
  match s with
  | EmptyString => Some acc
  | String c s' =>
      match digit_of c with
      | Some d => digits_value (10 * acc + d) s'
      | None => None
      end
  end.

Definition float_of_digits (s : string) : option R :=
  match s with
  | EmptyString => None
  | _ => option_map INR (digits_value 0 s)
  end.

(** ** [partition] and [validation_folds] ([data_set.py], lines 116-144)

    The fraction given to [partition] and the average section size of
    [validation_folds] are Python floats; they are modelled by exact
    rationals, and [math.floor] by [Qfloor]. *)

Definition partition (self : DataSet) (first_percentage : Q) : DataSet * DataSet :=
  let cutoff := Qfloor (first_percentage * inject_Z (len (data self))) in
  let first := mkDataSet (slice_to (data self) cutoff) (class_col self) (attr_cols self) "" in
  let second := mkDataSet (slice_from (data self) cutoff) (class_col self) (attr_cols self) "" in
  (first, second).

(** A fold is the dictionary with the keys ['test'] and ['train']. *)
Record Fold := mkFold {
  test : DataSet;
  train : DataSet
}.

(** [range(n)] *)
Definition range (n : Z) : list nat := seq 0 (Z.to_nat n).

Definition section_of (self : DataSet) (n : Z) (avg_size : Q) (i : nat) : list loc :=
  if (Z.of_nat i =? n - 1)%Z then
    slice_from (data self) (Qfloor (avg_size * inject_Z (Z.of_nat i)))
  else
    slice (data self) (Qfloor (avg_size * inject_Z (Z.of_nat i)))
                      (Qfloor (avg_size * inject_Z (Z.of_nat i + 1))).

Definition train_step (sections : list (list loc)) (i : nat)
    (train : list loc) (j : nat) : result (list loc) :=
  if bool_decide (i <> j) then
    s <- getitem sections j ;;
    Ok (train ++ s)
  else Ok train.

Definition fold_step (self : DataSet) (n : Z) (sections : list (list loc))
    (folds : list Fold) (i : nat) : result (list Fold) :=
  s <- getitem sections i ;;
  let test := mkDataSet s (class_col self) (attr_cols self) "" in
  train <- for_each (train_step sections i) (range n) [] ;;
  Ok (folds ++ [mkFold test (mkDataSet train (class_col self) (attr_cols self) "")]).

Definition validation_folds (self : DataSet) (n : Z) : result (list Fold) :=
  if (n =? 0)%Z then Raise ZeroDivisionError
  else
    let avg_size := (inject_Z (len (data self)) / inject_Z n)%Q in
    let sections := map (section_of self n avg_size) (range n) in
    for_each (fold_step self n sections) (range n) [].

(** The cut [math.floor(avg_size * i)] in binary64 arithmetic, to run the
    scenarios of the specification on the floats of the code. *)
Definition float_floor (x : PrimFloat.float) : Z :=
  match FloatOps.Prim2SF x with
  | SpecFloat.S754_finite s m e =>
      let v := if s then Z.neg m else Z.pos m in
      if (0 <=? e)%Z then (v * 2 ^ e)%Z else (v `div` 2 ^ (- e))%Z
  | _ => 0%Z
  end.

Definition float_of_int (n : Z) : PrimFloat.float :=
  PrimFloat.of_uint63 (Uint63.of_Z n).

Definition float_cut (rows n i : Z) : Z :=
  let avg_size := PrimFloat.div (float_of_int rows) (float_of_int n) in
  float_floor (PrimFloat.mul avg_size (float_of_int i)).

(** The sections as cuts of the row list: section [i] of [n] is the run of
    rows from position [cut rows n i] up to, and without, position
    [cut rows n (i + 1)]. *)
Definition cut (rows n i : nat) : nat := (rows * i) `div` n.

Definition chunk {A} (l : list A) (lo hi : nat) : list A :=
  take (hi - lo) (drop lo l).

Definition section (self : DataSet) (n i : nat) : list loc :=
  chunk (data self) (cut (length (data self)) n i) (cut (length (data self)) n (i + 1)).

(** The training rows of fold [i]: the sections other than [i], in order. *)
Definition others (i : nat) (l : list nat) : list nat :=
  filter (fun j => i <> j) l.

(** Fold [i] of [n]: section [i] to test on, the other sections to train
    on. *)
Definition fold_of (self : DataSet) (n i : nat) : Fold :=
  mkFold
    (mkDataSet (section self n i) (class_col self) (attr_cols self) "")
    (mkDataSet (concat (map (section self n) (others i (seq 0 n))))
       (class_col self) (attr_cols self) "").

(** The data set of [rows] row references that the size scenarios use. *)
Definition ds_of_size (rows : nat) : DataSet :=
  mkDataSet (seq 0 rows) 0 [] "".

Definition test_sizes (folds : list Fold) : list nat :=
  map (fun f => length (data (test f))) folds.

Definition train_sizes (folds : list Fold) : list nat :=
  map (fun f => length (data (train f))) folds.

(** ** [sample] ([data_set.py], lines 147-148)

    [random.sample(population, k)] is the function of Python's standard
    library, in its branch that keeps a pool of the items not yet selected:
    [pool = list(population)], then for [i] in [range(k)] the item
    [pool[j]] with [j = randbelow(n - i)] is selected and the last
    unselected item [pool[n - i - 1]] moves into its place.  The numbers
    that [randbelow] returns are an explicit argument [draws]: the library
    promises [draws[i] < n - i], each such number being equally likely.
    (For a small [k] on a large population the library instead redraws
    [randbelow(n)] until it hits an unselected position; a round of that
    branch, too, selects one of the [n - i] unselected items, each equally
    likely.) *)

Fixpoint sample_loop {A} (n : nat) (pool : list A) (i : nat) (draws : list nat)
  : result (list A) :=
  match draws with
  | [] => Ok []
  | j :: draws' =>
      x <- getitem pool j ;;
      y <- getitem pool (n - i - 1) ;;
      rest <- sample_loop n (<[j := y]> pool) (S i) draws' ;;
      Ok (x :: rest)
  end.

Definition random_sample {A} (population : list A) (k : Z) (draws : list nat)
  : result (list A) :=
  let n := length population in
  if negb ((0 <=? k)%Z && (k <=? Z.of_nat n)%Z) then Raise ValueError
  else sample_loop n population 0 (take (Z.to_nat k) draws).

Definition sample (self : DataSet) (k : Z) (draws : list nat) : result DataSet :=
  rows <- random_sample (data self) k draws ;;
  Ok (mkDataSet rows (class_col self) (attr_cols self) (filename self)).

(** The draws that [randbelow] can return from round [i] on, and in the [k]
    rounds of a sample of [n] items. *)
Definition draws_from (n i : nat) (draws : list nat) : Prop :=
  forall t j, draws !! t = Some j -> j < n - (i + t).

Definition valid_draws (n k : nat) (draws : list nat) : Prop :=
  length draws = k /\ draws_from n 0 draws.

(** The positions that a sample selects: the sample of [0, 1, ..., n - 1]. *)
Definition selection (n : nat) (k : Z) (draws : list nat) : result (list nat) :=
  random_sample (seq 0 n) k draws.

(** An ordered choice of [k] distinct positions below [n]. *)
Definition arrangement (n k : nat) (js : list nat) : Prop :=
  length js = k /\ NoDup js /\ Forall (fun j => j < n) js.

(** ** [EditedKNN] ([edited_knn.py]) *)

(** Modelled from the spec: the k-NN predictor [KNN] of
    [src/algorithms/knn.py], which is not among the sources.  Its state is
    the reference set used for voting, which "for plain k-NN equals the full
    training Dataset", and [k]; its constructor stores the two. *)
Record KNN := mkKNN {
  training_data : DataSet;
  k : nat
}.

Definition KNN_init (training_data : DataSet) (k : nat) : KNN :=
  mkKNN training_data k.

(** The body of [edit_training_data] is a comment and the expression
    ['empty']: it returns with the predictor and the rows as they were. *)
Definition edit_training_data (self : KNN) (st : store) : KNN * store :=
  (self, st).

Definition EditedKNN_init (training_data : DataSet) (k : nat) (st : store)
  : KNN * store :=
  let self := KNN_init training_data k in
  edit_training_data self st.

(** The effect of [convert_to_float cols] on a row: fields outside [cols]
    and numbers are kept ([kept]); in a converted row the fields in [cols]
    are numbers ([floated]). *)
Definition kept (cols : list nat) (r r' : row) : Prop :=
  length r' = length r /\
  forall i,
    (i ∉ cols -> r' !! i = r !! i) /\
    ((exists x, r !! i = Some (VNum x)) -> exists x, r' !! i = Some (VNum x)).

Definition floated (cols : list nat) (r : row) : Prop :=
  forall i, i ∈ cols -> i < length r -> exists x, r !! i = Some (VNum x).

(** ** Example data

    A data set of one stored row with a numeric and a categorical attribute,
    and two query rows of the same schema. *)
Definition ex_store : store := {[ 0 := [VNum 0; VStr "red"; VStr "A"] ]}.
Definition ex_ds : DataSet := mkDataSet [0] 2 [0; 1] "".
Definition ex_schema : list kind := [Numeric; Categorical; Categorical].
Definition ex_a : row := [VNum 3; VStr "red"; VStr "A"].
Definition ex_b : row := [VNum 0; VStr "blue"; VStr "B"].

(** Two stored rows with a numeric and a categorical column. *)
Definition ex_store2 : store :=
  {[ 0 := [VNum 1; VStr "a"]; 1 := [VNum 3; VStr "b"] ]}.
Definition ex_ds2 : DataSet := mkDataSet [0; 1] 1 [0] "".

(** Two stored rows read from a file: every field is a string. *)
Definition ex_store3 : store :=
  {[ 0 := [VStr "1"; VStr "x"]; 1 := [VStr "3"; VStr "y"] ]}.
Definition ex_ds3 : DataSet := mkDataSet [0; 1] 1 [0] "".

(** Five training rows with one attribute and the class in column 1.  The
    row of class B lies between rows of class A: its nearest neighbour, the
    row at 1, has another class, while every row of class A has a nearest
    neighbour of class A. *)
Definition ex_train_store : store :=
  {[ 0 := [VNum 0; VStr "A"]; 1 := [VNum 1; VStr "A"]; 2 := [VNum 3; VStr "B"];
     3 := [VNum 10; VStr "A"]; 4 := [VNum 11; VStr "A"] ]}.
Definition ex_train : DataSet := mkDataSet [0; 1; 2; 3; 4] 1 [0] "".

(** * The other methods of [DataSet], and [util.py] *)

(** ** The distance of a column

    [distance] is the Euclidean norm of the per-column distances: the
    absolute difference in a numeric column, 1 or 0 in a categorical one. *)
Definition gap (sch : list kind) (a b : row) (c : nat) : R :=
  match sch !! c with
  | Some Categorical => if decide (a !! c = b !! c) then 0%R else 1%R
  | _ => Rabs (num_at a c - num_at b c)
  end.

(** ** [remove_header] ([data_set.py], lines 65-66) *)

Definition remove_header (self : DataSet) (length : Z) : DataSet :=
  mkDataSet (slice_from (data self) length) (class_col self) (attr_cols self)
    (filename self).

(** ** The conversion of a row

    What [convert_to_float] does to the fields of a row from position [i]
    on: a field at a listed position goes through [float], the others
    stay. *)
Fixpoint float_fields (float_of_str : string -> option R) (cols : list nat)
    (i : nat) (r : row) : result row :=
  match r with
  | [] => Ok []
  | v :: r' =>
      v' <- (if bool_decide (i ∉ cols) then Ok v else py_float float_of_str v) ;;
      r'' <- float_fields float_of_str cols (S i) r' ;;
      Ok (v' :: r'')
  end.

Definition float_row (float_of_str : string -> option R) (cols : list nat)
    (r : row) : row :=
  match float_fields float_of_str cols 0 r with
  | Ok r' => r'
  | Raise _ => r
  end.

(** ** Dictionaries

    A dictionary whose keys are field values is the list of its items in
    insertion order, with one item per key. *)

(** [d.get(key)]: [None] when [key not in d]. *)
Fixpoint dict_get {V} (d : list (value * V)) (key : value) : option V :=
  match d with
  | [] => None
  | (k', v) :: d' => if decide (k' = key) then Some v else dict_get d' key
  end.

(** [d[key] = v] *)
Fixpoint dict_set {V} (d : list (value * V)) (key : value) (v : V)
  : list (value * V) :=
  match d with
  | [] => [(key, v)]
  | (k', v') :: d' =>
      if decide (k' = key) then (k', v) :: d' else (k', v') :: dict_set d' key v
  end.

(** ** [convert_attribute] ([data_set.py], lines 71-74) *)

Definition convert_attribute_step (col : nat) (value_map : list (value * value))
    (st : store) (l : loc) : result store :=
  row <- deref st l ;;
  v <- getitem row col ;;
  match dict_get value_map v with
  | Some v' =>
      row' <- setitem row col v' ;;
      Ok (<[l := row']> st)
  | None => Ok st
  end.

Definition convert_attribute (self : DataSet) (col : nat)
    (value_map : list (value * value)) (st : store) : result store :=
  for_each (convert_attribute_step col value_map) (data self) st.

(** What [convert_attribute] does to one row. *)
Definition convert_row (col : nat) (value_map : list (value * value)) (r : row)
  : row :=
  match r !! col with
  | Some v =>
      match dict_get value_map v with
      | Some v' => <[col := v']> r
      | None => r
      end
  | None => r
  end.

(** ** [shuffle] ([data_set.py], lines 111-112)

    [random.shuffle(x)] is the function of Python's standard library: for
    [i] from [len(x) - 1] down to 1 it exchanges [x[i]] with [x[j]],
    [j = randbelow(i + 1)].  As for [sample], the numbers that [randbelow]
    returns are the argument [draws]. *)

Fixpoint shuffle_loop {A} (x : list A) (i : nat) (draws : list nat)
  : result (list A) :=
  match i, draws with
  | S i', j :: draws' =>
      xj <- getitem x j ;;
      xi <- getitem x i ;;
      shuffle_loop (<[j := xi]> (<[i := xj]> x)) i' draws'
  | _, _ => Ok x
  end.

Definition random_shuffle {A} (x : list A) (draws : list nat) : result (list A) :=
  shuffle_loop x (length x - 1) draws.

Definition shuffle (self : DataSet) (draws : list nat) : result DataSet :=
  rows <- random_shuffle (data self) draws ;;
  Ok (mkDataSet rows (class_col self) (attr_cols self) (filename self)).

(** ** [calculate_class_distribution] ([util.py], lines 6-19)

    The function reads its rows and writes none: it takes them by value. *)

Definition class_distribution_step (n : nat) (class_col : nat)
    (probs : list (value * R)) (obs : row) : result (list (value * R)) :=
  class_val <- getitem obs class_col ;;
  match dict_get probs class_val with
  | Some p =>
      q <- py_div 1 (INR n) ;;
      Ok (dict_set probs class_val (p + q)%R)
  | None =>
      q <- py_div 1 (INR n) ;;
      Ok (dict_set probs class_val q)
  end.

Definition calculate_class_distribution (data : list row) (class_col : nat)
  : result (list (value * R)) :=
  let n := length data in
  for_each (class_distribution_step n class_col) data [].

(** The rows whose class is [c], counted. *)
Definition class_count (class_col : nat) (c : value) (data : list row) : nat :=
  length (filter (fun obs => obs !! class_col = Some c) data).

(** The dictionary after the rows [prefix]: one item per class seen, with the
    share of the rows of that class in the [n] rows, and shares that add up
    to the share of [prefix]. *)
Definition shares (n col : nat) (prefix : list row) (probs : list (value * R))
  : Prop :=
  NoDup (map fst probs) /\
  (forall c, dict_get probs c
             = if decide (class_count col c prefix = 0) then None
               else Some (INR (class_count col c prefix) / INR n)%R) /\
  Rsum (map snd probs) = (INR (length prefix) / INR n)%R.

(** ** The loaders of the experiments ([data_set.py], lines 162-254)

    Each loader reads a file with [util.read_file], builds a [DataSet] on
    the rows and prepares it in place.  The rows that were read are the
    argument [data], row objects of the store; the numbers drawn by
    [shuffle] and [sample] are arguments as well.  A loader returns its
    data set, and the store. *)

Definition ABALONE_DATA_FILE : string := "../data/abalone.data".
Definition CAR_DATA_FILE : string := "../data/car.data".
Definition FOREST_FIRE_DATA_FILE : string := "../data/forestfires.data".
Definition MACHINE_DATA_FILE : string := "../data/machine.data".
Definition SEGMENTATION_DATA_FILE : string := "../data/segmentation.data".
Definition WINE_DATA_FILE : string := "../data/winequality.data".

Section Loaders.

Variable float_of_str : string -> option R.

Definition get_abalone_data (data : list loc) (st : store) (draws : list nat)
  : result (DataSet * store) :=
  let abalone_data := mkDataSet data 8 (seq 0 8) ABALONE_DATA_FILE in
  let numeric_columns := seq 1 8 in
  st <- convert_to_float float_of_str abalone_data numeric_columns st ;;
  st <- normalize_z_score abalone_data numeric_columns st ;;
  abalone_data <- shuffle abalone_data draws ;;
  Ok (abalone_data, st).

Definition get_forest_fires_data (data : list loc) (st : store)
    (draws sample_draws : list nat) : result (DataSet * store) :=
  let forest_fires_data := mkDataSet data 12 (seq 0 12) FOREST_FIRE_DATA_FILE in
  let numeric_columns := [0; 1] ++ seq 4 9 in
  let forest_fires_data := remove_header forest_fires_data 1 in
  st <- convert_to_float float_of_str forest_fires_data
          [0; 1; 4; 5; 6; 7; 8; 9; 10; 11; 12] st ;;
  st <- normalize_z_score forest_fires_data [0; 1; 4; 5; 6; 7; 8; 9; 10; 11] st ;;
  forest_fires_data <- shuffle forest_fires_data draws ;;
  forest_fires_data <- sample forest_fires_data 250 sample_draws ;;
  Ok (forest_fires_data, st).

Definition get_machine_data (data : list loc) (st : store) (draws : list nat)
  : result (DataSet * store) :=
  let machine_data := mkDataSet data 8 (seq 0 8) MACHINE_DATA_FILE in
  st <- convert_to_float float_of_str machine_data (seq 2 7) st ;;
  st <- normalize_z_score machine_data (seq 2 6) st ;;
  machine_data <- shuffle machine_data draws ;;
  Ok (machine_data, st).

Definition get_segmentation_data (data : list loc) (st : store) (draws : list nat)
  : result (DataSet * store) :=
  let attr_cols := [1; 2; 3; 4; 5; 6; 8; 10; 11; 12; 13; 14; 15; 16; 17; 18; 19] in
  let segmentation_data := mkDataSet data 0 attr_cols SEGMENTATION_DATA_FILE in
  let segmentation_data := remove_header segmentation_data 5 in
  st <- convert_to_float float_of_str segmentation_data attr_cols st ;;
  st <- normalize_z_score segmentation_data attr_cols st ;;
  segmentation_data <- shuffle segmentation_data draws ;;
  Ok (segmentation_data, st).

Definition get_wine_data (data : list loc) (st : store) (draws : list nat)
  : result (DataSet * store) :=
  let wine_data := mkDataSet data 11 (seq 0 11) WINE_DATA_FILE in
  st <- convert_to_float float_of_str wine_data (seq 0 12) st ;;
  st <- normalize_z_score wine_data (seq 0 11) st ;;
  wine_data <- shuffle wine_data draws ;;
  Ok (wine_data, st).

End Loaders.

(** [get_car_data] calls no [float]: it maps the categories of each column
    to numbers. *)
Definition get_car_data (data : list loc) (st : store) (draws : list nat)
  : result (DataSet * store) :=
  let car_data := mkDataSet data 6 (seq 0 6) CAR_DATA_FILE in
  st <- convert_attribute car_data 0
          [(VStr "low", VNum 0); (VStr "med", VNum 1); (VStr "high", VNum 2);
           (VStr "vhigh", VNum 3)] st ;;
  st <- convert_attribute car_data 1
          [(VStr "low", VNum 0); (VStr "med", VNum 1); (VStr "high", VNum 2);
           (VStr "vhigh", VNum 3)] st ;;
  st <- convert_attribute car_data 2
          [(VStr "2", VNum 2); (VStr "3", VNum 3); (VStr "4", VNum 4);
           (VStr "5more", VNum 5)] st ;;
  st <- convert_attribute car_data 3
          [(VStr "2", VNum 2); (VStr "4", VNum 4); (VStr "more", VNum 5)] st ;;
  st <- convert_attribute car_data 4
          [(VStr "small", VNum 0); (VStr "med", VNum 1); (VStr "big", VNum 2)] st ;;
  st <- convert_attribute car_data 5
          [(VStr "low", VNum 0); (VStr "med", VNum 1); (VStr "high", VNum 2)] st ;;
  let numeric_columns := seq 0 6 in
  st <- normalize_z_score car_data numeric_columns st ;;
  car_data <- shuffle car_data draws ;;
  Ok (car_data, st).

(** ** Example data for the further properties

    Three rows in the format of the car data, before any conversion; the
    first field of the last one is no key of the map that
    [get_car_data] gives for column 0. *)
Definition ex_car_store : store :=
  {[ 0 := [VStr "low"; VStr "2"; VStr "unacc"];
     1 := [VStr "vhigh"; VStr "4"; VStr "acc"];
     2 := [VStr "medium"; VStr "2"; VStr "acc"] ]}.
Definition ex_car_ds : DataSet := mkDataSet [0; 1; 2] 2 [0; 1] "".
Definition ex_car_map : list (value * value) :=
  [(VStr "low", VNum 0); (VStr "med", VNum 1); (VStr "high", VNum 2);
   (VStr "vhigh", VNum 3)].

(** Three rows by value, with the class in column 1. *)
Definition ex_class_rows : list row :=
  [[VNum 0; VStr "A"]; [VNum 1; VStr "A"]; [VNum 3; VStr "B"]].

(** The value maps that [get_car_data] gives for the columns 0 to 5. *)
Definition car_value_maps : list (list (value * value)) :=
  [ [(VStr "low", VNum 0); (VStr "med", VNum 1); (VStr "high", VNum 2);
     (VStr "vhigh", VNum 3)];
    [(VStr "low", VNum 0); (VStr "med", VNum 1); (VStr "high", VNum 2);
     (VStr "vhigh", VNum 3)];
    [(VStr "2", VNum 2); (VStr "3", VNum 3); (VStr "4", VNum 4);
     (VStr "5more", VNum 5)];
    [(VStr "2", VNum 2); (VStr "4", VNum 4); (VStr "more", VNum 5)];
    [(VStr "small", VNum 0); (VStr "med", VNum 1); (VStr "big", VNum 2)];
    [(VStr "low", VNum 0); (VStr "med", VNum 1); (VStr "high", VNum 2)] ].

(** The store [st] after the columns below [k] of the rows [ls] of the
    store [st0] were replaced by numbers, and nothing else was written. *)
Definition converted_upto (ls : list loc) (k : nat) (st0 st : store) : Prop :=
  (forall l, l ∉ ls -> st !! l = st0 !! l) /\
  forall l r, l ∈ ls -> st0 !! l = Some r ->
    exists r',
      st !! l = Some r' /\ length r' = length r /\
      (forall c, c < k -> exists x, r' !! c = Some (VNum x)) /\
      (forall c, k <= c -> r' !! c = r !! c).

(** ** Checks on rows and draws

    The conditions under which the loaders return, as functions that
    evaluate: the strings of a row in the columns [cols] are ones that
    [float] accepts; the rows [ls] are in the store, [width] fields wide at
    least, with such strings; each of the [draws] is below the bound of its
    round, which starts at [n] and goes down by 1. *)
Definition floats_at (float_of_str : string -> option R) (cols : list nat)
    (r : row) : bool :=
  forallb (fun i => match r !! i with
                    | Some (VStr s) =>
                        match float_of_str s with Some _ => true | None => false end
                    | _ => true
                    end) cols.

Definition rows_readable (float_of_str : string -> option R) (cols : list nat)
    (width : nat) (st : store) (ls : list loc) : bool :=
  forallb (fun l => match st !! l with
                    | Some r => (width <=? length r) && floats_at float_of_str cols r
                    | None => false
                    end) ls.

Fixpoint draws_below (n : nat) (draws : list nat) : bool :=
  match draws with
  | [] => true
  | j :: draws' => (j <? n) && draws_below (n - 1) draws'
  end.

(** ** Example files

    Three lines in the format of the abalone data. *)
Definition ex_abalone_lines : list loc := [0; 1; 2].
Definition ex_abalone_store : store :=
  {[ 0 := VStr <$> ["M"; "455"; "365"; "95"; "514"; "224"; "101"; "150"; "15"];
     1 := VStr <$> ["F"; "530"; "420"; "135"; "677"; "256"; "141"; "210"; "9"];
     2 := VStr <$> ["I"; "330"; "255"; "80"; "205"; "89"; "39"; "55"; "7"] ]}.

(** A header and 250 lines in the format of the forest fires data. *)
Definition ex_fire_row (i : nat) : row :=
  if i =? 0 then
    VStr <$> ["X"; "Y"; "month"; "day"; "FFMC"; "DMC"; "DC"; "ISI"; "temp"; "RH";
              "wind"; "rain"; "area"]
  else if Nat.even i then
    VStr <$> ["7"; "5"; "mar"; "fri"; "86"; "26"; "94"; "5"; "8"; "51"; "6"; "0"; "0"]
  else
    VStr <$> ["7"; "4"; "oct"; "tue"; "90"; "35"; "669"; "6"; "18"; "33"; "0"; "0"; "1"].
Definition ex_fire_lines : list loc := seq 0 251.
Definition ex_fire_store : store :=
  list_to_map (map (fun i => (i, ex_fire_row i)) ex_fire_lines).

(** Four lines in the format of the car data; the first field of the last
    one is no key of the map for column 0. *)
Definition ex_car_file : store :=
  {[ 0 := VStr <$> ["vhigh"; "vhigh"; "2"; "2"; "small"; "low"; "unacc"];
     1 := VStr <$> ["low"; "med"; "5more"; "more"; "big"; "high"; "vgood"];
     2 := VStr <$> ["med"; "low"; "4"; "4"; "med"; "med"; "acc"];
     3 := VStr <$> ["medium"; "low"; "4"; "4"; "med"; "med"; "acc"] ]}.

(** Five header lines and three lines in the format of the segmentation
    data, and three lines in the format of the machine data. *)
Definition ex_segmentation_lines : list loc := seq 0 8.
Definition ex_segmentation_file : store :=
  {[ 0 := [VStr "title"]; 1 := []; 2 := [VStr "names"]; 3 := []; 4 := [];
     5 := VStr <$> ["SKY"; "140"; "125"; "9"; "0"; "0"; "2"; "0"; "1"; "0"; "6";
                    "7"; "7"; "4"; "3"; "3"; "0"; "7"; "1"; "2"];
     6 := VStr <$> ["PATH"; "188"; "133"; "9"; "0"; "0"; "3"; "0"; "3"; "1"; "42";
                    "41"; "50"; "37"; "5"; "21"; "16"; "50"; "3"; "1"];
     7 := VStr <$> ["GRASS"; "105"; "139"; "9"; "0"; "0"; "1"; "0"; "2"; "0"; "18";
                    "12"; "29"; "13"; "15"; "32"; "17"; "29"; "5"; "2"] ]}.

Definition ex_machine_lines : list loc := [0; 1; 2].
Definition ex_machine_file : store :=
  {[ 0 := VStr <$> ["adviser"; "32/60"; "125"; "256"; "6000"; "256"; "16"; "128";
                    "198"; "199"];
     1 := VStr <$> ["amdahl"; "470v/7"; "29"; "8000"; "32000"; "32"; "8"; "32";
                    "269"; "253"];
     2 := VStr <$> ["ibm"; "370/125"; "480"; "96"; "512"; "0"; "1"; "1";
                    "15"; "19"] ]}.

(** Membership and inclusion of given lists of columns, by evaluation. *)
Ltac mem_eval := apply (bool_decide_unpack _); vm_compute; exact I.

(** * Properties *)

(** ** Helper lemmas: the loop combinator and the Python primitives *)

Lemma for_each_app {A S} (f : S -> A -> result S) l1 l2 s :
  for_each f (l1 ++ l2) s = (s' <- for_each f l1 s ;; for_each f l2 s').
Proof.
  revert s. induction l1 as [|x l1 IH]; intros s; simpl; [done|].
  destruct (f s x); simpl; auto.
Qed.

Lemma py_ne_spec x y : py_ne x y = true <-> x <> y.
Proof.
  destruct x as [x|s], y as [y|t]; simpl; try (split; [congruence | done]).
  - destruct (Req_dec_T x y); split; congruence.
  - destruct (String.eqb_spec s t); simpl; split; congruence.
Qed.

Lemma py_ne_refl x : py_ne x x = false.
Proof.
  destruct (py_ne x x) eqn:E; [|done]. apply py_ne_spec in E. congruence.
Qed.

Lemma py_ne_sym x y : py_ne x y = py_ne y x.
Proof.
  destruct (py_ne x y) eqn:E1, (py_ne y x) eqn:E2; try done.
  - apply py_ne_spec in E1. apply not_true_iff_false in E2.
    rewrite py_ne_spec in E2. destruct E2. congruence.
  - apply py_ne_spec in E2. apply not_true_iff_false in E1.
    rewrite py_ne_spec in E1. destruct E1. congruence.
Qed.

Lemma has_schema_lookup sch r c k :
  has_schema sch r -> sch !! c = Some k ->
  exists v, r !! c = Some v /\ kind_of v = k.
Proof.
  unfold has_schema. intros <- H.
  rewrite list_lookup_fmap in H.
  destruct (r !! c) as [v|]; simplify_eq/=; eauto.
Qed.

Lemma first_row_getitem self st r0 :
  first_row self st = Some r0 ->
  exists l0, getitem (data self) 0 = Ok l0 /\ deref st l0 = Ok r0.
Proof.
  unfold first_row, getitem, deref. destruct (data self) as [|l0 ?]; [done|].
  intros H. exists l0. simpl. by rewrite H.
Qed.

Lemma get_str_attr_cols_loop self st r0 cols acc :
  first_row self st = Some r0 ->
  valid_cols (map kind_of r0) cols ->
  for_each (get_str_attr_cols_step self st) cols acc
  = Ok (acc ++ categorical_cols (map kind_of r0) cols).
Proof.
  intros Hfirst. destruct (first_row_getitem _ _ _ Hfirst) as (l0 & Hl0 & Hr0).
  revert acc. induction cols as [|c cols IH]; intros acc Hv; simpl.
  - by rewrite app_nil_r.
  - inversion Hv as [|? ? Hc Hv']; subst.
    rewrite length_map in Hc. apply lookup_lt_is_Some_2 in Hc as [v Hv0].
    unfold get_str_attr_cols_step at 1. rewrite Hl0. simpl. rewrite Hr0. simpl.
    unfold getitem at 1. rewrite Hv0. simpl.
    rewrite IH by done. unfold categorical_cols. rewrite filter_cons.
    rewrite list_lookup_fmap, Hv0. simpl.
    destruct v; simpl; [done | by rewrite <- app_assoc].
Qed.

Lemma get_str_attr_cols_schema self st sch :
  schema self st = Some sch ->
  valid_cols sch (attr_cols self) ->
  get_str_attr_cols self st = Ok (categorical_cols sch (attr_cols self)).
Proof.
  unfold schema. destruct (first_row self st) as [r0|] eqn:Hfirst; [|done].
  intros [= <-] Hv. unfold get_str_attr_cols.
  by rewrite (get_str_attr_cols_loop _ _ r0).
Qed.

Lemma elem_of_categorical_cols sch cols c :
  c ∈ categorical_cols sch cols <-> sch !! c = Some Categorical /\ c ∈ cols.
Proof. unfold categorical_cols. by rewrite list_elem_of_filter. Qed.

Lemma distance_step_schema sch cols a b sum c :
  has_schema sch a -> has_schema sch b ->
  c ∈ cols -> c < length sch ->
  distance_step (categorical_cols sch cols) a b sum c
  = Ok (sum + disagreement sch a b c)%R.
Proof.
  intros Ha Hb Hc Hlt. apply lookup_lt_is_Some_2 in Hlt as [k Hk].
  destruct (has_schema_lookup _ _ _ _ Ha Hk) as (x & Hx & Hkx).
  destruct (has_schema_lookup _ _ _ _ Hb Hk) as (y & Hy & Hky).
  unfold distance_step, disagreement, getitem, num_at. rewrite Hk, Hx, Hy. simpl.
  destruct k.
  - rewrite bool_decide_eq_false_2.
    2:{ rewrite elem_of_categorical_cols. intros [? _]. congruence. }
    destruct x, y; try discriminate. done.
  - rewrite bool_decide_eq_true_2 by (by apply elem_of_categorical_cols).
    destruct (py_ne x y) eqn:E.
    + apply py_ne_spec in E. rewrite decide_False by congruence. done.
    + apply not_true_iff_false in E. rewrite py_ne_spec in E.
      rewrite decide_True; [done|]. f_equal. by destruct (decide (x = y)).
Qed.

Lemma distance_loop_schema sch cols a b cols' sum :
  has_schema sch a -> has_schema sch b ->
  Forall (fun c => c ∈ cols /\ c < length sch) cols' ->
  for_each (distance_step (categorical_cols sch cols) a b) cols' sum
  = Ok (sum + Rsum (map (disagreement sch a b) cols'))%R.
Proof.
  intros Ha Hb. revert sum.
  induction cols' as [|c cols' IH]; intros sum Hall; simpl.
  - f_equal. lra.
  - inversion Hall as [|? ? [Hc Hlt] Hall']; subst.
    rewrite distance_step_schema by done. simpl.
    rewrite IH by done. f_equal. lra.
Qed.

Lemma disagreement_nonneg sch a b c : (0 <= disagreement sch a b c)%R.
Proof.
  unfold disagreement.
  destruct (sch !! c) as [[]|]; try apply pow2_ge_0.
  destruct (decide _); lra.
Qed.

Lemma Rsum_nonneg l : Forall (fun x => 0 <= x)%R l -> (0 <= Rsum l)%R.
Proof. induction 1; simpl; lra. Qed.

Lemma Rsum_disagreement_nonneg sch a b cols :
  (0 <= Rsum (map (disagreement sch a b) cols))%R.
Proof.
  apply Rsum_nonneg, Forall_forall. intros x Hx.
  apply list_elem_of_fmap in Hx as (c & -> & _).
  apply disagreement_nonneg.
Qed.

Lemma math_sqrt_nonneg x : (0 <= x)%R -> math_sqrt x = Ok (sqrt x).
Proof. intros H. unfold math_sqrt. destruct (Rlt_dec x 0); [lra | done]. Qed.

Lemma valid_cols_self sch cols :
  valid_cols sch cols -> Forall (fun c => c ∈ cols /\ c < length sch) cols.
Proof.
  unfold valid_cols. rewrite !Forall_forall. intros H c Hc.
  split; auto.
Qed.

(** With the schema in hand, [distance] is [math.sqrt] of the sum of the
    disagreements. *)
Lemma distance_radicand self st sch a b :
  schema self st = Some sch ->
  valid_cols sch (attr_cols self) ->
  has_schema sch a -> has_schema sch b ->
  distance self st a b
  = math_sqrt (Rsum (map (disagreement sch a b) (attr_cols self))).
Proof.
  intros Hsch Hv Ha Hb. unfold distance.
  rewrite (get_str_attr_cols_schema _ _ sch) by done. cbn [bind].
  rewrite distance_loop_schema by auto using valid_cols_self. cbn [bind].
  by rewrite Rplus_0_l.
Qed.

Lemma ex_valid_cols : valid_cols ex_schema (attr_cols ex_ds).
Proof. repeat constructor. Defined.

(** ** Claim C1 *)



(** The value in the example: one numeric column differing by 3 and one
    categorical column that differs give the square root of 9 + 1. *)
Example spec_distance_example :
  spec_distance ex_schema (attr_cols ex_ds) ex_a ex_b = sqrt 10.
Proof.
  unfold spec_distance, disagreement, num_at. simpl. f_equal. lra.
Qed.

(** Without a first row there is no schema to read: on a data set without
    rows [distance] raises [IndexError] as soon as it has an attribute
    column to classify. *)
Example distance_no_rows :
  distance (mkDataSet [] 1 [0] "") ∅ [VNum 1; VStr "A"] [VNum 1; VStr "A"]
  = Raise IndexError.
Proof. reflexivity. Qed.

(** ** Claim C7 *)

Lemma for_each_ext {A S} (f g : S -> A -> result S) l s :
  (forall s x, f s x = g s x) -> for_each f l s = for_each g l s.
Proof.
  intros H. revert s. induction l as [|x l IH]; intros s; simpl; [done|].
  rewrite H. destruct (g s x); simpl; auto.
Qed.

Lemma py_sub_sq_sym x y :
  (d <- py_sub x y ;; Ok (d ^ 2)%R) = (d <- py_sub y x ;; Ok (d ^ 2)%R).
Proof. destruct x, y; simpl; try done. f_equal. ring. Qed.

Lemma distance_step_sym strs a b sum c :
  distance_step strs a b sum c = distance_step strs b a sum c.
Proof.
  unfold distance_step, getitem.
  destruct (bool_decide _), (a !! c) as [x|], (b !! c) as [y|]; simpl; try done.
  - by rewrite py_ne_sym.
  - destruct x, y; simpl; try done. f_equal. ring.
Qed.

(** [distance] gives the same result, exception or number, in both orders. *)
Lemma distance_sym self st a b :
  distance self st a b = distance self st b a.
Proof.
  unfold distance. destruct (get_str_attr_cols self st) as [strs|]; simpl; [|done].
  by rewrite (for_each_ext _ (distance_step strs b a))
    by apply distance_step_sym.
Qed.

Lemma disagreement_self sch a c : disagreement sch a a c = 0%R.
Proof.
  unfold disagreement.
  destruct (sch !! c) as [[]|]; try ring.
  by rewrite decide_True.
Qed.

Lemma spec_distance_self sch cols a : spec_distance sch cols a a = 0%R.
Proof.
  unfold spec_distance.
  replace (Rsum (map (disagreement sch a a) cols)) with 0%R; [apply sqrt_0|].
  induction cols as [|c cols IH]; simpl; [done|].
  rewrite disagreement_self, <- IH. ring.
Qed.



(** ** Claim C6 *)

Lemma slice_bound_in_range n c :
  (0 <= c <= Z.of_nat n)%Z -> slice_bound n c = Z.to_nat c.
Proof.
  intros H. unfold slice_bound.
  destruct (Z.ltb_spec c 0); [lia|]. f_equal. lia.
Qed.

Lemma slice_to_from {A} (l : list A) c : slice_to l c ++ slice_from l c = l.
Proof. apply take_drop. Qed.

Lemma floor_fraction_in_range (f : Q) (n : nat) :
  (0 <= f)%Q -> (f <= 1)%Q ->
  (0 <= Qfloor (f * inject_Z (Z.of_nat n)) <= Z.of_nat n)%Z.
Proof.
  intros H0 H1.
  assert (Hn : (0 <= inject_Z (Z.of_nat n))%Q).
  { change 0%Q with (inject_Z 0). rewrite <- Zle_Qle. lia. }
  split.
  - rewrite <- (Qfloor_Z 0). apply Qfloor_resp_le.
    change (inject_Z 0) with 0%Q. by apply Qmult_le_0_compat.
  - rewrite <- (Qfloor_Z (Z.of_nat n)) at 2. apply Qfloor_resp_le.
    rewrite <- (Qmult_1_l (inject_Z (Z.of_nat n))) at 2.
    by apply Qmult_le_compat_r.
Qed.



(** ** [validation_folds]: the folds it returns *)

Lemma floor_avg_size (rows n i : nat) :
  0 < n ->
  Qfloor (inject_Z (Z.of_nat rows) / inject_Z (Z.of_nat n) * inject_Z (Z.of_nat i))
  = Z.of_nat (cut rows n i).
Proof.
  intros Hn. unfold cut. rewrite Nat2Z.inj_div, Nat2Z.inj_mul.
  destruct n as [|n]; [lia|].
  set (p := Pos.of_succ_nat n).
  replace (Z.of_nat (S n)) with (Z.pos p) by (unfold p; lia).
  rewrite (Qfloor_comp _ ((Z.of_nat rows * Z.of_nat i) # p)).
  - reflexivity.
  - rewrite <- Qmake_Qdiv. unfold Qeq, Qmult. simpl. lia.
Qed.

Lemma cut_0 rows n : cut rows n 0 = 0.
Proof. unfold cut. rewrite Nat.mul_0_r. by destruct n. Qed.

Lemma cut_n rows n : 0 < n -> cut rows n n = rows.
Proof. intros Hn. unfold cut. apply Nat.div_mul. lia. Qed.

Lemma cut_mono rows n i j : i <= j -> cut rows n i <= cut rows n j.
Proof.
  intros Hij. unfold cut. apply Nat.Div0.div_le_mono. nia.
Qed.

Lemma cut_le rows n i : 0 < n -> i <= n -> cut rows n i <= rows.
Proof.
  intros Hn Hi. rewrite <- (cut_n rows n Hn) at 2. by apply cut_mono.
Qed.

(** Consecutive cuts are [rows / n] or [rows / n + 1] apart. *)
Lemma cut_step rows n i :
  0 < n ->
  rows `div` n <= cut rows n (i + 1) - cut rows n i <= rows `div` n + 1.
Proof.
  intros Hn. unfold cut.
  pose proof (Nat.div_mod_eq rows n) as Hr.
  pose proof (Nat.mod_upper_bound rows n ltac:(lia)) as Hm.
  pose proof (Nat.div_mod_eq (rows * i) n) as Hi.
  pose proof (Nat.mod_upper_bound (rows * i) n ltac:(lia)) as Hmi.
  pose proof (Nat.div_mod_eq (rows * (i + 1)) n) as Hi1.
  pose proof (Nat.mod_upper_bound (rows * (i + 1)) n ltac:(lia)) as Hmi1.
  set (q := rows `div` n) in *. set (r := rows `mod` n) in *.
  set (a := (rows * i) `div` n) in *. set (ra := (rows * i) `mod` n) in *.
  set (b := (rows * (i + 1)) `div` n) in *.
  set (rb := (rows * (i + 1)) `mod` n) in *.
  assert (n * b + rb = n * a + ra + n * q + r) by lia.
  split; nia.
Qed.

Lemma chunk_to_end {A} (l : list A) lo : chunk l lo (length l) = drop lo l.
Proof.
  unfold chunk. apply take_ge. rewrite length_drop. lia.
Qed.

Lemma section_of_section self (n i : nat) :
  i < n ->
  section_of self (Z.of_nat n)
    (inject_Z (len (data self)) / inject_Z (Z.of_nat n)) i
  = section self n i.
Proof.
  intros Hi. unfold section_of, section, len.
  assert (Hn : 0 < n) by lia.
  replace (Z.of_nat i + 1)%Z with (Z.of_nat (i + 1)) by lia.
  rewrite !floor_avg_size by done.
  pose proof (cut_le (length (data self)) n i Hn ltac:(lia)) as Hlo.
  destruct (Z.eqb_spec (Z.of_nat i) (Z.of_nat n - 1)) as [Heq|Hne].
  - unfold slice_from. rewrite slice_bound_in_range by lia.
    rewrite Nat2Z.id. replace (i + 1) with n by lia.
    rewrite cut_n by done. by rewrite chunk_to_end.
  - pose proof (cut_le (length (data self)) n (i + 1) Hn ltac:(lia)) as Hhi.
    unfold slice. rewrite !slice_bound_in_range by lia.
    by rewrite !Nat2Z.id.
Qed.

Lemma sections_of_sections self (n : nat) :
  map (section_of self (Z.of_nat n)
         (inject_Z (len (data self)) / inject_Z (Z.of_nat n))) (range (Z.of_nat n))
  = map (section self n) (seq 0 n).
Proof.
  unfold range. rewrite Nat2Z.id. apply map_ext_in.
  intros i Hi. apply in_seq in Hi. apply section_of_section. lia.
Qed.

Lemma getitem_map_seq {A} (g : nat -> A) n i :
  i < n -> getitem (map g (seq 0 n)) i = Ok (g i).
Proof.
  intros Hi. unfold getitem.
  change (map g (seq 0 n)) with (g <$> seq 0 n).
  rewrite list_lookup_fmap, lookup_seq_lt by done. done.
Qed.

Lemma train_loop (g : nat -> list loc) n i l acc :
  Forall (fun j => j < n) l ->
  for_each (train_step (map g (seq 0 n)) i) l acc
  = Ok (acc ++ concat (map g (others i l))).
Proof.
  revert acc. induction l as [|j l IH]; intros acc Hl; simpl.
  - by rewrite app_nil_r.
  - inversion Hl as [|? ? Hj Hl']; subst.
    unfold train_step at 1. unfold others. rewrite filter_cons.
    destruct (decide (i <> j)) as [Hne|Heq].
    + rewrite bool_decide_eq_true_2 by done.
      rewrite getitem_map_seq by done. simpl.
      rewrite IH by done. by rewrite <- app_assoc.
    + rewrite bool_decide_eq_false_2 by done. simpl. by rewrite IH.
Qed.

Lemma fold_loop self (n : nat) l acc :
  Forall (fun i => i < n) l ->
  for_each (fold_step self (Z.of_nat n) (map (section self n) (seq 0 n))) l acc
  = Ok (acc ++ map (fold_of self n) l).
Proof.
  revert acc. induction l as [|i l IH]; intros acc Hl; simpl.
  - by rewrite app_nil_r.
  - inversion Hl as [|? ? Hi Hl']; subst.
    unfold fold_step at 1. rewrite getitem_map_seq by done. simpl.
    unfold range. rewrite Nat2Z.id.
    rewrite train_loop by (apply Forall_forall; intros j Hj;
                           apply elem_of_seq in Hj; lia).
    simpl. rewrite IH by done. by rewrite <- app_assoc.
Qed.

Lemma validation_folds_ok self (n : nat) :
  1 <= n ->
  validation_folds self (Z.of_nat n) = Ok (map (fold_of self n) (seq 0 n)).
Proof.
  intros Hn. unfold validation_folds.
  destruct (Z.eqb_spec (Z.of_nat n) 0); [lia|].
  cbv zeta. rewrite sections_of_sections.
  unfold range at 1. rewrite Nat2Z.id.
  rewrite fold_loop; [done|].
  apply Forall_forall. intros j Hj. apply elem_of_seq in Hj. lia.
Qed.

Lemma sections_concat_prefix self n k :
  k <= n ->
  concat (map (section self n) (seq 0 k))
  = take (cut (length (data self)) n k) (data self).
Proof.
  intros Hk. induction k as [|k IH].
  - simpl. by rewrite cut_0.
  - rewrite seq_S, map_app, concat_app, IH by lia. simpl.
    rewrite app_nil_r. unfold section, chunk.
    replace (k + 1) with (S k) by lia.
    pose proof (cut_mono (length (data self)) n k (S k) ltac:(lia)) as Hm.
    rewrite take_take_drop. f_equal. lia.
Qed.

Lemma sections_concat self n :
  1 <= n -> concat (map (section self n) (seq 0 n)) = data self.
Proof.
  intros Hn. rewrite sections_concat_prefix, cut_n by lia. by apply take_ge.
Qed.

Lemma others_not_elem i l : i ∉ l -> others i l = l.
Proof.
  intros Hi. unfold others. induction l as [|j l IH]; [done|].
  rewrite filter_cons. apply not_elem_of_cons in Hi as [Hne Hi].
  rewrite decide_True by done. by rewrite IH.
Qed.

Lemma others_perm {A} (g : nat -> list A) i l :
  NoDup l -> i ∈ l ->
  concat (map g (others i l)) ++ g i ≡ₚ concat (map g l).
Proof.
  intros Hnd. induction Hnd as [|j l Hj Hnd IH]; intros Hi.
  - by apply elem_of_nil in Hi.
  - unfold others. rewrite filter_cons. fold (others i l).
    destruct (decide (i <> j)) as [Hne|Heq].
    + apply elem_of_cons in Hi as [->|Hi]; [done|].
      simpl. rewrite <- app_assoc. by rewrite IH.
    + assert (i = j) as -> by (destruct (decide (i = j)); [done | by destruct Heq]).
      rewrite others_not_elem by done. simpl. apply Permutation_app_comm.
Qed.

Lemma fold_of_perm self n i :
  1 <= n -> i < n ->
  data (train (fold_of self n i)) ++ data (test (fold_of self n i)) ≡ₚ data self.
Proof.
  intros Hn Hi. simpl. rewrite others_perm.
  - by rewrite sections_concat.
  - apply NoDup_seq.
  - apply elem_of_seq. lia.
Qed.

Lemma length_section self n i :
  0 < n -> i < n ->
  length (section self n i)
  = cut (length (data self)) n (i + 1) - cut (length (data self)) n i.
Proof.
  intros Hn Hi. unfold section, chunk.
  rewrite length_take, length_drop.
  pose proof (cut_le (length (data self)) n (i + 1) Hn ltac:(lia)). lia.
Qed.

(** ** Claim C2 *)


(** The cuts of this scenario are the same in binary64 arithmetic: 10 / 4,
    and its products with 1, 2 and 3, are floats. *)
Example float_cuts_4_of_10 :
  map (float_cut 10 4) [0; 1; 2; 3]%Z = [0; 2; 5; 7]%Z /\
  map (fun i => Z.of_nat (cut 10 4 i)) [0; 1; 2; 3] = [0; 2; 5; 7]%Z.
Proof. split; vm_compute; reflexivity. Qed.



(** ** Claim C3 *)

Lemma sum_list_const {A} (h : A -> nat) (c : nat) l :
  (forall x, x ∈ l -> h x = c) -> sum_list (map h l) = length l * c.
Proof.
  induction l as [|x l IH]; intros H; simpl; [done|].
  rewrite (H x) by apply list_elem_of_here.
  rewrite IH; [done|]. intros y Hy. apply H. by apply list_elem_of_further.
Qed.

(** C3: for [n >= 1], every fold that [validation_folds(n)] returns holds,
    in its training and test rows together, exactly the rows of the data
    set, each as often as the data set holds it (as row objects, hence also
    as row contents in any store), and the training and test sizes of the
    [n] folds add up to [n] times the row count. *)
Theorem validation_folds_train_test_cover self (n : nat) :
  1 <= n ->
  exists folds,
    validation_folds self (Z.of_nat n) = Ok folds /\
    (forall f, f ∈ folds ->
       data (train f) ++ data (test f) ≡ₚ data self /\
       forall st : store,
         ((st !!.) <$> data (train f)) ++ ((st !!.) <$> data (test f))
         ≡ₚ (st !!.) <$> data self) /\
    sum_list (map (fun f => length (data (train f)) + length (data (test f))) folds)
    = n * length (data self).
Proof.
  intros Hn. exists (map (fold_of self n) (seq 0 n)).
  split; [by apply validation_folds_ok|].
  assert (Hperm : forall f, f ∈ map (fold_of self n) (seq 0 n) ->
            data (train f) ++ data (test f) ≡ₚ data self).
  { intros f Hf. apply list_elem_of_fmap in Hf as (i & -> & Hi).
    apply elem_of_seq in Hi. apply fold_of_perm; lia. }
  split.
  - intros f Hf. split; [by apply Hperm|].
    intros st. rewrite <- fmap_app. by rewrite (Hperm f Hf).
  - rewrite (sum_list_const _ (length (data self))).
    + by rewrite length_map, length_seq.
    + intros f Hf. rewrite <- length_app. by rewrite (Hperm f Hf).
Qed.

Lemma validation_folds_train_test_cover_witness :
  exists folds,
    validation_folds (ds_of_size 10) (Z.of_nat 4) = Ok folds /\
    (forall f, f ∈ folds ->
       data (train f) ++ data (test f) ≡ₚ data (ds_of_size 10) /\
       forall st : store,
         ((st !!.) <$> data (train f)) ++ ((st !!.) <$> data (test f))
         ≡ₚ (st !!.) <$> data (ds_of_size 10)) /\
    sum_list (map (fun f => length (data (train f)) + length (data (test f))) folds)
    = 4 * length (data (ds_of_size 10)).
Proof. apply (validation_folds_train_test_cover (ds_of_size 10) 4). lia. Defined.

(** ** [normalize_z_score]: one column, then the listed columns *)

Lemma col_sum_loop st col ls acc :
  (forall l, l ∈ ls -> exists r x, st !! l = Some r /\ r !! col = Some (VNum x)) ->
  for_each (col_sum_step st col) ls acc
  = Ok (acc + Rsum (map (fun l => num_at (default [] (st !! l)) col) ls))%R.
Proof.
  revert acc. induction ls as [|l ls IH]; intros acc H.
  - simpl. f_equal. lra.
  - destruct (H l) as (r & x & Hr & Hx); [apply list_elem_of_here|].
    assert (Hn : num_at (default [] (st !! l)) col = x).
    { unfold num_at. rewrite Hr. simpl. by rewrite Hx. }
    cbn [for_each map]. rewrite Hn.
    unfold col_sum_step at 1, deref, getitem. rewrite Hr. cbn [bind].
    rewrite Hx. cbn [bind py_add py_sub]. rewrite IH.
    + unfold Rsum. cbn [fold_right]. f_equal. lra.
    + intros l' Hl'. apply H. by apply list_elem_of_further.
Qed.

Lemma square_diff_loop st col m ls acc :
  (forall l, l ∈ ls -> exists r x, st !! l = Some r /\ r !! col = Some (VNum x)) ->
  for_each (square_diff_step st col m) ls acc
  = Ok (acc + Rsum (map (fun x => (x - m) ^ 2)
                      (map (fun l => num_at (default [] (st !! l)) col) ls)))%R.
Proof.
  revert acc. induction ls as [|l ls IH]; intros acc H.
  - simpl. f_equal. lra.
  - destruct (H l) as (r & x & Hr & Hx); [apply list_elem_of_here|].
    assert (Hn : num_at (default [] (st !! l)) col = x).
    { unfold num_at. rewrite Hr. simpl. by rewrite Hx. }
    cbn [for_each map]. rewrite Hn.
    unfold square_diff_step at 1, deref, getitem. rewrite Hr. cbn [bind].
    rewrite Hx. cbn [bind py_add py_sub]. rewrite IH.
    + unfold Rsum. cbn [fold_right]. f_equal. lra.
    + intros l' Hl'. apply H. by apply list_elem_of_further.
Qed.

Lemma alter_lookup_insert (f : row -> row) (st : store) l r :
  st !! l = Some r -> <[l := f r]> st = alter f l st.
Proof.
  intros H. apply map_eq. intros l'.
  destruct (decide (l = l')) as [<-|Hne].
  - by rewrite lookup_insert_eq, lookup_alter_eq, H.
  - by rewrite lookup_insert_ne, lookup_alter_ne.
Qed.

Lemma z_score_loop col m s ls st :
  NoDup ls ->
  (forall l, l ∈ ls -> exists r x, st !! l = Some r /\ r !! col = Some (VNum x)) ->
  for_each (z_score_step col m s) ls st = Ok (update_rows (z_row col m s) ls st).
Proof.
  intros Hnd. revert st. induction Hnd as [|l ls Hl Hnd IH]; intros st H; simpl.
  - done.
  - destruct (H l) as (r & x & Hr & Hx); [apply list_elem_of_here|].
    assert (Hlen : col < length r) by (apply lookup_lt_is_Some; eauto).
    assert (Hstep : z_score_step col m s st l = Ok (alter (z_row col m s) l st)).
    { unfold z_score_step, deref, getitem, setitem, py_div. rewrite Hr. simpl.
      rewrite <- (alter_lookup_insert _ _ _ r) by done.
      unfold z_row, num_at. rewrite Hx.
      destruct (Req_dec_T s 0); simpl.
      - by rewrite decide_True.
      - by rewrite decide_True. }
    rewrite Hstep. simpl. apply IH.
    intros l' Hl'. destruct (H l') as (r' & x' & Hr' & Hx');
      [by apply list_elem_of_further|].
    exists r', x'. split; [|done].
    rewrite lookup_alter_ne; [done|]. intros ->. done.
Qed.

Lemma lookup_update_rows f ls (st : store) l :
  NoDup ls ->
  update_rows f ls st !! l = if decide (l ∈ ls) then f <$> st !! l else st !! l.
Proof.
  intros Hnd. revert st.
  induction Hnd as [|l0 ls Hl0 Hnd IH]; intros st; cbn [update_rows].
  - destruct (decide _) as [H|]; [by apply elem_of_nil in H | done].
  - rewrite IH. destruct (decide (l = l0)) as [->|Hne].
    + rewrite decide_False by done. rewrite decide_True by apply list_elem_of_here.
      by rewrite lookup_alter_eq.
    + rewrite lookup_alter_ne by done.
      destruct (decide (l ∈ ls)).
      * rewrite decide_True; [done|]. by apply list_elem_of_further.
      * rewrite decide_False; [done|]. rewrite elem_of_cons. tauto.
Qed.

Lemma Rsum_squares_nonneg (m : R) xs :
  (0 <= Rsum (map (fun x => (x - m) ^ 2) xs))%R.
Proof.
  apply Rsum_nonneg, Forall_forall. intros y Hy.
  apply list_elem_of_fmap in Hy as (x & -> & _). apply pow2_ge_0.
Qed.

Lemma numeric_cols_row self st cols l :
  numeric_cols self st cols -> l ∈ data self ->
  exists r, st !! l = Some r /\
    forall c, c ∈ cols -> exists x, r !! c = Some (VNum x).
Proof.
  unfold numeric_cols. rewrite Forall_forall. intros H Hl.
  destruct (H l Hl) as (r & Hr & Hnum). rewrite Forall_forall in Hnum. eauto.
Qed.

Lemma numeric_cols_intro self st cols :
  (forall l, l ∈ data self ->
     exists r, st !! l = Some r /\
       forall c, c ∈ cols -> exists x, r !! c = Some (VNum x)) ->
  numeric_cols self st cols.
Proof.
  intros H. apply Forall_forall. intros l Hl.
  destruct (H l Hl) as (r & Hr & Hnum). exists r. split; [done|].
  by apply Forall_forall.
Qed.

Lemma numeric_cols_col self st cols col l :
  numeric_cols self st cols -> col ∈ cols -> l ∈ data self ->
  exists r x, st !! l = Some r /\ r !! col = Some (VNum x).
Proof.
  intros H Hc Hl. destruct (numeric_cols_row _ _ _ _ H Hl) as (r & Hr & Hnum).
  destruct (Hnum col Hc) as (x & Hx). eauto.
Qed.

(** One pass of the outer loop: the column is replaced by its z-scores. *)
Lemma normalize_col_ok self st cols col :
  data self <> [] -> NoDup (data self) ->
  numeric_cols self st cols -> col ∈ cols ->
  normalize_col self st col
  = Ok (update_rows
          (z_row col (mean (column self st col)) (spread (column self st col)))
          (data self) st).
Proof.
  intros Hne Hnd Hnum Hcol.
  assert (Hrows : forall l, l ∈ data self ->
            exists r x, st !! l = Some r /\ r !! col = Some (VNum x))
    by eauto using numeric_cols_col.
  unfold normalize_col.
  rewrite col_sum_loop by done. cbn [bind]. fold (column self st col).
  unfold py_div at 1.
  destruct (Req_dec_T (INR (length (data self))) 0) as [H0|_].
  { apply (INR_eq _ 0) in H0. by destruct (data self). }
  cbn [bind].
  replace ((0 + Rsum (column self st col)) / INR (length (data self)))%R
    with (mean (column self st col)).
  2:{ unfold mean, column. rewrite length_map, Rplus_0_l. done. }
  rewrite square_diff_loop by done. cbn [bind]. fold (column self st col).
  rewrite Rplus_0_l, math_sqrt_nonneg by apply Rsum_squares_nonneg.
  cbn [bind]. by apply z_score_loop.
Qed.

Lemma z_row_lookup_ne col m s r c : col <> c -> z_row col m s r !! c = r !! c.
Proof. intros H. unfold z_row. by rewrite list_lookup_insert_ne. Qed.

Lemma z_row_lookup_eq col xs r x :
  r !! col = Some (VNum x) ->
  z_row col (mean xs) (spread xs) r !! col = Some (VNum (z_score xs x)).
Proof.
  intros H. unfold z_row, z_score, num_at. rewrite H.
  apply list_lookup_insert_eq. apply lookup_lt_is_Some. eauto.
Qed.

Lemma num_at_z_row_ne col m s r c : col <> c -> num_at (z_row col m s r) c = num_at r c.
Proof. intros H. unfold num_at. by rewrite z_row_lookup_ne. Qed.

Lemma column_update_rows self st col m s c :
  NoDup (data self) -> col <> c ->
  column self (update_rows (z_row col m s) (data self) st) c = column self st c.
Proof.
  intros Hnd Hc. unfold column. apply map_ext_in. intros l Hl.
  rewrite lookup_update_rows by done.
  destruct (decide (l ∈ data self)); [|done].
  destruct (st !! l) as [r|]; simpl; [|done]. by apply num_at_z_row_ne.
Qed.

Lemma Rsum_shift_scale (m s : R) xs :
  Rsum (map (fun x => (x - m) / s)%R xs)
  = ((Rsum xs - INR (length xs) * m) / s)%R.
Proof.
  induction xs as [|x xs IH].
  - cbn. unfold Rdiv. ring.
  - cbn [map length]. rewrite S_INR. unfold Rsum in *. cbn [fold_right].
    rewrite IH. unfold Rdiv. ring.
Qed.

Lemma Rsum_square_scale (m s : R) xs :
  Rsum (map (fun z => (z - 0) ^ 2)%R (map (fun x => (x - m) / s)%R xs))
  = (Rsum (map (fun x => (x - m) ^ 2)%R xs) * (/ s) ^ 2)%R.
Proof.
  induction xs as [|x xs IH].
  - cbn. ring.
  - cbn [map]. unfold Rsum in *. cbn [fold_right]. rewrite IH.
    unfold Rdiv. ring.
Qed.

Lemma Rsum_zeros {A} (xs : list A) : Rsum (map (fun _ => 0%R) xs) = 0%R.
Proof. induction xs as [|x xs IH]; cbn; [done|]. unfold Rsum in IH. rewrite IH. ring. Qed.

(** Normalizing a normalized column changes nothing. *)
Lemma z_score_idempotent xs x :
  xs <> [] ->
  z_score (map (z_score xs) xs) (z_score xs x) = z_score xs x.
Proof.
  intros Hne.
  assert (Hn : INR (length xs) <> 0%R).
  { intros H. apply (INR_eq _ 0) in H. by destruct xs. }
  unfold z_score at 2 3 4. destruct (Req_dec_T (spread xs) 0) as [H0|Hs].
  - unfold z_score. destruct (Req_dec_T _ _); [done|].
    unfold mean. rewrite Rsum_zeros. unfold Rdiv. ring.
  - set (m := mean xs). set (s := spread xs) in *.
    set (zs := map (fun x0 => (x0 - m) / s)%R xs).
    assert (Hmean : mean zs = 0%R).
    { unfold mean, zs. rewrite Rsum_shift_scale, length_map.
      unfold m, mean. field. done. }
    assert (Hspread : spread zs = 1%R).
    { unfold spread. rewrite Hmean. unfold zs. rewrite Rsum_square_scale.
      fold m. set (ssd := Rsum (map (fun x0 => (x0 - m) ^ 2)%R xs)).
      assert (Hssd : (0 <= ssd)%R) by apply Rsum_squares_nonneg.
      assert (Hs2 : (s ^ 2 = ssd)%R).
      { unfold s, spread. fold m ssd. by rewrite pow2_sqrt. }
      rewrite <- Hs2.
      replace (s ^ 2 * (/ s) ^ 2)%R with 1%R by (field; done).
      apply sqrt_1. }
    unfold z_score. rewrite Hspread, Hmean.
    destruct (Req_dec_T 1 0); [lra|]. field. done.
Qed.

Lemma column_update_rows_eq self st col xs :
  NoDup (data self) ->
  (forall l, l ∈ data self ->
     exists r x, st !! l = Some r /\ r !! col = Some (VNum x)) ->
  column self (update_rows (z_row col (mean xs) (spread xs)) (data self) st) col
  = map (z_score xs) (column self st col).
Proof.
  intros Hnd Hrows. unfold column. rewrite map_map. apply map_ext_in.
  intros l Hl. apply list_elem_of_In in Hl.
  rewrite lookup_update_rows, decide_True by done.
  destruct (Hrows l Hl) as (r & x & Hr & Hx). rewrite Hr. cbn.
  unfold num_at at 1. rewrite (z_row_lookup_eq _ _ _ x) by done.
  unfold num_at. by rewrite Hx.
Qed.

Lemma normalize_z_score_ok self cols st :
  data self <> [] -> NoDup (data self) ->
  numeric_cols self st cols ->
  exists st',
    normalize_z_score self cols st = Ok st' /\
    (forall l, l ∉ data self -> st' !! l = st !! l) /\
    (forall l r, l ∈ data self -> st !! l = Some r ->
       exists r',
         st' !! l = Some r' /\
         length r' = length r /\
         (forall c, c ∈ cols ->
            r' !! c = Some (VNum (z_score (column self st c) (num_at r c)))) /\
         (forall c, c ∉ cols -> r' !! c = r !! c)).
Proof.
  intros Hne Hnd. revert st.
  induction cols as [|c0 cols IH]; intros st Hnum.
  - exists st. split; [done|]. split; [done|].
    intros l r _ Hr. exists r.
    split; [done|]. split; [done|]. split; [|done].
    intros c Hc. by apply elem_of_nil in Hc.
  - unfold normalize_z_score. cbn [for_each].
    rewrite (normalize_col_ok self st (c0 :: cols) c0)
      by (done || apply list_elem_of_here).
    cbn [bind]. fold (normalize_z_score self cols).
    set (xs := column self st c0).
    assert (Hxs : xs <> []).
    { unfold xs, column. by destruct (data self). }
    set (st1 := update_rows (z_row c0 (mean xs) (spread xs)) (data self) st).
    assert (Hst1 : forall l, l ∈ data self ->
              st1 !! l = z_row c0 (mean xs) (spread xs) <$> st !! l).
    { intros l Hl. unfold st1. rewrite lookup_update_rows by done.
      by rewrite decide_True. }
    assert (Hc0 : forall l, l ∈ data self ->
              exists r x, st !! l = Some r /\ r !! c0 = Some (VNum x)).
    { intros l Hl. eapply numeric_cols_col; [done | apply list_elem_of_here | done]. }
    assert (Hnum1 : numeric_cols self st1 cols).
    { apply numeric_cols_intro. intros l Hl.
      destruct (numeric_cols_row _ _ _ _ Hnum Hl) as (r & Hr & Hx).
      exists (z_row c0 (mean xs) (spread xs) r). split.
      - by rewrite Hst1, Hr.
      - intros c Hc. destruct (decide (c0 = c)) as [<-|Hne0].
        + destruct (Hx c0) as (x & Hx0); [apply list_elem_of_here|].
          rewrite (z_row_lookup_eq _ _ _ x) by done. eauto.
        + rewrite z_row_lookup_ne by done.
          apply Hx. by apply list_elem_of_further. }
    destruct (IH st1 Hnum1) as (st' & Hrun & Hout & Hin).
    exists st'. split; [done|]. split.
    + intros l Hl. rewrite Hout by done.
      unfold st1. rewrite lookup_update_rows by done. by rewrite decide_False.
    + intros l r Hl Hr.
      destruct (Hin l (z_row c0 (mean xs) (spread xs) r) Hl)
        as (r' & Hr' & Hlen & Hcs & Hother).
      { by rewrite Hst1, Hr. }
      destruct (Hc0 l Hl) as (r0 & x & Hr0 & Hx0).
      assert (r0 = r) as -> by congruence.
      assert (Hz : z_row c0 (mean xs) (spread xs) r !! c0
                   = Some (VNum (z_score xs (num_at r c0)))).
      { rewrite (z_row_lookup_eq _ _ _ x) by done. unfold num_at. by rewrite Hx0. }
      exists r'. split; [done|]. split.
      { rewrite Hlen. unfold z_row. apply length_insert. }
      split.
      * intros c Hc. destruct (decide (c0 = c)) as [<-|Hne0].
        -- destruct (decide (c0 ∈ cols)) as [Hdup|Hfresh].
           ++ rewrite Hcs by done. unfold st1.
              rewrite column_update_rows_eq by done. fold xs.
              unfold num_at at 1. rewrite Hz.
              by rewrite z_score_idempotent.
           ++ by rewrite Hother.
        -- apply elem_of_cons in Hc as [->|Hc]; [done|].
           rewrite Hcs by done. unfold st1.
           by rewrite column_update_rows, num_at_z_row_ne.
      * intros c Hc. apply not_elem_of_cons in Hc as [Hc1 Hc2].
        rewrite Hother by done. by rewrite z_row_lookup_ne.
Qed.

(** ** Claim C5 *)


Lemma ex_ds2_rows_distinct : NoDup (data ex_ds2).
Proof. apply (bool_decide_unpack _). vm_compute. exact I. Defined.

Lemma ex_ds2_numeric : numeric_cols ex_ds2 ex_store2 [0].
Proof.
  repeat first [ apply Forall_nil_2 | apply Forall_cons_2 ];
    eexists; (split; [reflexivity|]); repeat constructor; eexists; reflexivity.
Defined.


(** ** [convert_to_float] and the classification of the columns *)

Lemma kept_refl cols r : kept cols r r.
Proof. split; [done|]. intros i. split; auto. Qed.

Lemma kept_trans cols r1 r2 r3 : kept cols r1 r2 -> kept cols r2 r3 -> kept cols r1 r3.
Proof.
  intros [Hl1 H1] [Hl2 H2]. split; [congruence|].
  intros i. destruct (H1 i) as [Ha Hb], (H2 i) as [Hc Hd]. split.
  - intros Hi. by rewrite Hc, Ha.
  - auto.
Qed.

Lemma floated_kept cols r r' : floated cols r -> kept cols r r' -> floated cols r'.
Proof.
  intros Hf [Hl Hk] i Hi Hlt. rewrite Hl in Hlt.
  destruct (Hk i) as [_ Hnum]. auto.
Qed.

Section ConversionFacts.

Variable float_of_str : string -> option R.

Lemma convert_field_kept cols line i line' :
  convert_field float_of_str cols line i = Ok line' ->
  kept cols line line' /\
  (i ∈ cols -> i < length line -> exists x, line' !! i = Some (VNum x)).
Proof.
  unfold convert_field. destruct (decide (i ∉ cols)) as [Hi|Hi].
  - rewrite bool_decide_eq_true_2 by done. intros [= <-].
    split; [apply kept_refl | done].
  - rewrite bool_decide_eq_false_2 by done.
    unfold getitem, setitem. destruct (line !! i) as [v|] eqn:Hv; [|done].
    cbn [bind]. destruct (py_float float_of_str v) as [v'|] eqn:Hf; [|done].
    cbn [bind]. destruct (decide (i < length line)) as [Hlt|]; [|done].
    intros [= <-].
    assert (Hnum : exists x, v' = VNum x).
    { unfold py_float in Hf. destruct v as [x|s]; [injection Hf as <-; eauto|].
      destruct (float_of_str s); [injection Hf as <-; eauto | done]. }
    destruct Hnum as [x ->]. split; [split|].
    + apply length_insert.
    + intros j. split.
      * intros Hj. apply list_lookup_insert_ne. intros ->. done.
      * intros [y Hy]. destruct (decide (i = j)) as [->|Hne].
        -- rewrite list_lookup_insert_eq by done. eauto.
        -- rewrite list_lookup_insert_ne by done. eauto.
    + intros _ _. rewrite list_lookup_insert_eq by done. eauto.
Qed.

Lemma convert_fields_kept cols idx line line' :
  for_each (convert_field float_of_str cols) idx line = Ok line' ->
  kept cols line line' /\
  (forall i, i ∈ idx -> i ∈ cols -> i < length line ->
     exists x, line' !! i = Some (VNum x)).
Proof.
  revert line. induction idx as [|i idx IH]; intros line; cbn [for_each].
  - intros [= <-]. split; [apply kept_refl|].
    intros i Hi. by apply elem_of_nil in Hi.
  - destruct (convert_field float_of_str cols line i) as [line1|] eqn:H1; [|done].
    cbn [bind]. intros H2.
    apply convert_field_kept in H1 as [Hk1 Hn1].
    apply IH in H2 as [Hk2 Hn2]. split; [by eapply kept_trans|].
    intros j Hj Hc Hlt. apply elem_of_cons in Hj as [->|Hj].
    + destruct Hk2 as [_ Hk2]. apply Hk2. auto.
    + apply Hn2; [done..|]. destruct Hk1 as [-> _]. done.
Qed.

Lemma convert_line_kept cols (st st' : store) l :
  convert_line float_of_str cols st l = Ok st' ->
  exists line line',
    st !! l = Some line /\ st' = <[l := line']> st /\
    kept cols line line' /\ floated cols line'.
Proof.
  unfold convert_line, deref. destruct (st !! l) as [line|]; [|done].
  cbn [bind].
  destruct (for_each _ _ line) as [line'|] eqn:H; [|done].
  cbn [bind]. intros [= <-]. exists line, line'.
  apply convert_fields_kept in H as [Hk Hn].
  split; [done|]. split; [done|]. split; [done|].
  intros i Hi Hlt. destruct Hk as [Hlen _]. rewrite Hlen in Hlt.
  apply Hn; [|done..]. apply elem_of_seq. lia.
Qed.

Lemma convert_to_float_kept cols ls (st st' : store) :
  for_each (convert_line float_of_str cols) ls st = Ok st' ->
  forall l r, st !! l = Some r ->
    exists r', st' !! l = Some r' /\ kept cols r r' /\
               (l ∈ ls -> floated cols r').
Proof.
  revert st. induction ls as [|l0 ls IH]; intros st; cbn [for_each].
  - intros [= <-] l r Hr. exists r. split; [done|]. split; [apply kept_refl|].
    intros Hl. by apply elem_of_nil in Hl.
  - destruct (convert_line float_of_str cols st l0) as [st1|] eqn:H1; [|done].
    cbn [bind]. intros H2 l r Hr.
    apply convert_line_kept in H1 as (line & line' & Hline & -> & Hk & Hf).
    destruct (decide (l = l0)) as [->|Hne].
    + assert (line = r) as -> by congruence.
      destruct (IH _ H2 l0 line') as (r' & Hr' & Hk' & _);
        [by rewrite lookup_insert_eq|].
      exists r'. split; [done|]. split; [by eapply kept_trans|].
      intros _. by eapply floated_kept.
    + destruct (IH _ H2 l r) as (r' & Hr' & Hk' & Hf');
        [by rewrite lookup_insert_ne|].
      exists r'. split; [done|]. split; [done|].
      intros Hl. apply elem_of_cons in Hl as [->|Hl]; [done | auto].
Qed.

Lemma categorical_cols_converted cols (r r' : row) attrs :
  kept cols r r' -> floated cols r' ->
  valid_cols (map kind_of r) attrs ->
  categorical_cols (map kind_of r') attrs
  = filter (fun c => c ∉ cols) (categorical_cols (map kind_of r) attrs).
Proof.
  intros [Hlen Hk] Hf Hv. unfold categorical_cols.
  induction Hv as [|c attrs Hc Hv IH]; [done|].
  rewrite length_map in Hc.
  rewrite !filter_cons, IH, !list_lookup_fmap.
  destruct (decide (c ∈ cols)) as [Hin|Hnotin].
  - destruct (Hf c Hin) as [x ->]; [lia|]. cbn [fmap option_fmap option_map kind_of].
    rewrite decide_False by discriminate.
    destruct (decide (kind_of <$> r !! c = Some Categorical)); [|done].
    rewrite filter_cons. by rewrite decide_False by auto.
  - destruct (Hk c) as [Heq _]. rewrite Heq by done.
    destruct (decide (kind_of <$> r !! c = Some Categorical)); [|done].
    rewrite filter_cons. by rewrite decide_True.
Qed.

(** ** Claim C8 *)

(** C8, amended: in a fixed state of the data set the columns that count as
    categorical are the attribute columns that the first row holds a string
    in, whichever call of [distance] asks; [convert_to_float cols] changes
    them: after it the categorical columns are those that were categorical
    before and are not listed in [cols]. *)
Theorem convert_to_float_reclassifies self cols (st st' : store) sch :
  schema self st = Some sch ->
  valid_cols sch (attr_cols self) ->
  convert_to_float float_of_str self cols st = Ok st' ->
  get_str_attr_cols self st = Ok (categorical_cols sch (attr_cols self)) /\
  (forall a b,
     distance self st a b
     = (sum <- for_each
                 (distance_step (categorical_cols sch (attr_cols self)) a b)
                 (attr_cols self) 0%R ;;
        math_sqrt sum)) /\
  get_str_attr_cols self st'
  = Ok (filter (fun c => c ∉ cols) (categorical_cols sch (attr_cols self))).
Proof.
  intros Hsch Hv Hconv.
  pose proof (get_str_attr_cols_schema self st sch Hsch Hv) as Hbefore.
  split; [done|]. split.
  { intros a b. unfold distance. by rewrite Hbefore. }
  unfold schema in Hsch.
  destruct (first_row self st) as [r0|] eqn:Hfirst; [|done].
  injection Hsch as <-. unfold first_row in Hfirst.
  destruct (data self) as [|l0 ls] eqn:Hdata; [done|].
  destruct (convert_to_float_kept cols (l0 :: ls) st st') with (l := l0) (r := r0)
    as (r0' & Hr0' & Hk & Hf); [by rewrite <- Hdata | done |].
  specialize (Hf (list_elem_of_here _ _)).
  rewrite (get_str_attr_cols_schema self st' (map kind_of r0')).
  - f_equal. by apply categorical_cols_converted.
  - unfold schema, first_row. by rewrite Hdata, Hr0'.
  - unfold valid_cols in *. destruct Hk as [Hlen _].
    by rewrite length_map, Hlen, <- (length_map kind_of).
Qed.

End ConversionFacts.

Lemma convert_to_float_reclassifies_witness :
  exists st',
    convert_to_float float_of_digits ex_ds3 [0] ex_store3 = Ok st' /\
    get_str_attr_cols ex_ds3 ex_store3 = Ok [0] /\
    get_str_attr_cols ex_ds3 st' = Ok [].
Proof.
  eexists. split; [vm_compute; reflexivity|].
  match goal with
  | |- _ /\ get_str_attr_cols _ ?st' = _ =>
      destruct (convert_to_float_reclassifies float_of_digits ex_ds3 [0]
                  ex_store3 st' [Categorical; Categorical])
        as (Hbefore & _ & Hafter);
      [reflexivity | repeat constructor | vm_compute; reflexivity |]
  end.
  split; [exact Hbefore | exact Hafter].
Defined.

(** C8, as the claim states it, fails: [convert_to_float] is an operation of
    the data set that changes which columns count as categorical.  Column 0
    of the two rows read from a file is categorical; after
    [convert_to_float([0])] no column is. *)
Lemma convert_to_float_changes_classification :
  exists st',
    convert_to_float float_of_digits ex_ds3 [0] ex_store3 = Ok st' /\
    get_str_attr_cols ex_ds3 ex_store3 = Ok [0] /\
    get_str_attr_cols ex_ds3 st' = Ok [] /\
    get_str_attr_cols ex_ds3 st' <> get_str_attr_cols ex_ds3 ex_store3.
Proof.
  eexists. split; [vm_compute; reflexivity|].
  split; [reflexivity|]. split; [reflexivity|]. discriminate.
Qed.

(** ** Claim C9 *)

Lemma fold_of_rows self n i l :
  1 <= n -> i < n ->
  l ∈ data (train (fold_of self n i)) \/ l ∈ data (test (fold_of self n i))
  <-> l ∈ data self.
Proof.
  intros Hn Hi. rewrite <- (fold_of_perm self n i Hn Hi). by rewrite elem_of_app.
Qed.

Lemma fold_of_test_in_train self n i j l :
  j < n -> i <> j ->
  l ∈ data (test (fold_of self n j)) -> l ∈ data (train (fold_of self n i)).
Proof.
  intros Hj Hij Hl. cbn [fold_of test train data] in *.
  apply list_elem_of_In, in_concat. exists (section self n j).
  split; [|by apply list_elem_of_In]. apply list_elem_of_In.
  apply list_elem_of_fmap. exists j. split; [done|].
  unfold others. apply list_elem_of_filter. split; [done|].
  apply elem_of_seq. lia.
Qed.

Lemma fold_of_train_NoDup self n i :
  1 <= n -> i < n -> NoDup (data self) -> NoDup (data (train (fold_of self n i))).
Proof.
  intros Hn Hi Hnd. rewrite <- (fold_of_perm self n i Hn Hi) in Hnd.
  by apply NoDup_app in Hnd as [? _].
Qed.

Lemma lookup_folds self n i f :
  map (fold_of self n) (seq 0 n) !! i = Some f -> i < n /\ f = fold_of self n i.
Proof.
  change (map (fold_of self n) (seq 0 n)) with (fold_of self n <$> seq 0 n).
  rewrite list_lookup_fmap. intros Hf.
  destruct (seq 0 n !! i) as [j|] eqn:Hj; [|done].
  apply lookup_seq in Hj as [-> Hi]. by injection Hf as <-.
Qed.

(** C9, amended: the train and test data sets of the folds hold the row
    objects of the source data set, not copies of them.  Every row object of
    a fold is one of the source, and the test rows of a fold are training
    rows of every other fold; so when [normalize_z_score] runs on the
    training data of one fold, the source data set and the other folds read
    the z-scores it wrote. *)
Theorem validation_folds_share_rows self (n : nat) :
  1 <= n ->
  exists folds,
    validation_folds self (Z.of_nat n) = Ok folds /\
    (forall f l, f ∈ folds ->
       l ∈ data (train f) \/ l ∈ data (test f) <-> l ∈ data self) /\
    (forall i j fi fj l,
       folds !! i = Some fi -> folds !! j = Some fj -> i <> j ->
       l ∈ data (test fj) -> l ∈ data (train fi)) /\
    (forall f cols (st : store),
       f ∈ folds -> data (train f) <> [] -> NoDup (data self) ->
       numeric_cols (train f) st cols ->
       exists st',
         normalize_z_score (train f) cols st = Ok st' /\
         forall l r c,
           l ∈ data (train f) -> st !! l = Some r -> c ∈ cols ->
           l ∈ data self /\
           exists r',
             st' !! l = Some r' /\
             r' !! c = Some (VNum (z_score (column (train f) st c) (num_at r c)))).
Proof.
  intros Hn. exists (map (fold_of self n) (seq 0 n)).
  split; [by apply validation_folds_ok|].
  assert (Hin : forall f, f ∈ map (fold_of self n) (seq 0 n) ->
            exists i, i < n /\ f = fold_of self n i).
  { intros f Hf. apply list_elem_of_fmap in Hf as (i & -> & Hi).
    apply elem_of_seq in Hi. exists i. split; [lia | done]. }
  split; [|split].
  - intros f l Hf. destruct (Hin f Hf) as (i & Hi & ->).
    by apply fold_of_rows.
  - intros i j fi fj l Hfi Hfj Hij.
    apply lookup_folds in Hfi as [Hi ->]. apply lookup_folds in Hfj as [Hj ->].
    by apply fold_of_test_in_train.
  - intros f cols st Hf Hne Hnd Hnum.
    destruct (Hin f Hf) as (i & Hi & ->).
    destruct (normalize_z_score_ok (train (fold_of self n i)) cols st)
      as (st' & Hrun & _ & Hrows); [done | by apply fold_of_train_NoDup | done..|].
    exists st'. split; [done|]. intros l r c Hl Hr Hc. split.
    + apply (fold_of_rows self n i l Hn Hi). by left.
    + destruct (Hrows l r Hl Hr) as (r' & Hr' & _ & Hcs & _). eauto.
Qed.

Lemma validation_folds_share_rows_witness :
  exists folds,
    validation_folds ex_ds2 (Z.of_nat 2) = Ok folds /\
    (forall f l, f ∈ folds ->
       l ∈ data (train f) \/ l ∈ data (test f) <-> l ∈ data ex_ds2) /\
    (forall i j fi fj l,
       folds !! i = Some fi -> folds !! j = Some fj -> i <> j ->
       l ∈ data (test fj) -> l ∈ data (train fi)) /\
    (forall f cols (st : store),
       f ∈ folds -> data (train f) <> [] -> NoDup (data ex_ds2) ->
       numeric_cols (train f) st cols ->
       exists st',
         normalize_z_score (train f) cols st = Ok st' /\
         forall l r c,
           l ∈ data (train f) -> st !! l = Some r -> c ∈ cols ->
           l ∈ data ex_ds2 /\
           exists r',
             st' !! l = Some r' /\
             r' !! c = Some (VNum (z_score (column (train f) st c) (num_at r c)))).
Proof. apply (validation_folds_share_rows ex_ds2 2). lia. Defined.

Lemma z_score_single x : z_score [x] x = 0%R.
Proof.
  unfold z_score. destruct (Req_dec_T _ _); [done|].
  unfold mean, Rsum. cbn [fold_right length INR]. unfold Rdiv.
  replace (x - (x + 0) * / 1)%R with 0%R by (rewrite Rinv_1; ring).
  ring.
Qed.

(** C9, as the claim states it, fails.  Fold 0 of the two folds of the data
    set [ex_ds2] trains on row object 1; normalizing column 0 of this
    training data writes 0 into the row, and both the source data set and
    the test data of fold 1 read the changed row. *)
Lemma normalizing_a_fold_changes_the_source :
  exists folds f0 f1 st',
    validation_folds ex_ds2 2 = Ok folds /\
    folds !! 0 = Some f0 /\ folds !! 1 = Some f1 /\
    normalize_z_score (train f0) [0] ex_store2 = Ok st' /\
    ((st' !!.) <$> data ex_ds2) <> ((ex_store2 !!.) <$> data ex_ds2) /\
    ((st' !!.) <$> data (test f1)) <> ((ex_store2 !!.) <$> data (test f1)).
Proof.
  set (f0 := mkFold (mkDataSet [0] 1 [0] "") (mkDataSet [1] 1 [0] "")).
  set (f1 := mkFold (mkDataSet [1] 1 [0] "") (mkDataSet [0] 1 [0] "")).
  destruct (normalize_z_score_ok (train f0) [0] ex_store2)
    as (st' & Hrun & _ & Hrows).
  { discriminate. }
  { apply (bool_decide_unpack _). vm_compute. exact I. }
  { repeat first [ apply Forall_nil_2 | apply Forall_cons_2 ];
      eexists; (split; [reflexivity|]); repeat constructor; eexists; reflexivity. }
  destruct (Hrows 1 [VNum 3; VStr "b"]) as (r' & Hr' & _ & Hcs & _);
    [apply list_elem_of_here | reflexivity |].
  specialize (Hcs 0 (list_elem_of_here _ _)).
  change (column (train f0) ex_store2 0) with [3%R] in Hcs.
  change (num_at [VNum 3; VStr "b"] 0) with 3%R in Hcs.
  rewrite z_score_single in Hcs.
  assert (Hchanged : st' !! 1 <> ex_store2 !! 1).
  { rewrite Hr'. change (ex_store2 !! 1) with (Some [VNum 3; VStr "b"]).
    intros [= ->]. cbn in Hcs. injection Hcs as Hcs. lra. }
  exists [f0; f1], f0, f1, st'.
  split; [vm_compute; reflexivity|].
  split; [reflexivity|]. split; [reflexivity|]. split; [exact Hrun|].
  split.
  - cbn. intros [= _ H]. done.
  - cbn. intros [= H]. done.
Qed.

(** ** [sample]: the pool of [random.sample] *)

Lemma sample_loop_map {A B} (f : A -> B) n pool i draws :
  sample_loop n (map f pool) i draws
  = match sample_loop n pool i draws with
    | Ok xs => Ok (map f xs)
    | Raise e => Raise e
    end.
Proof.
  revert pool i. induction draws as [|j draws IH]; intros pool i; [done|].
  cbn [sample_loop]. unfold getitem.
  change (map f pool) with (f <$> pool). rewrite !list_lookup_fmap.
  destruct (pool !! j) as [x|]; [|done]. cbn [fmap option_fmap option_map bind].
  destruct (pool !! (n - i - 1)) as [y|]; [|done].
  cbn [fmap option_fmap option_map bind].
  rewrite <- list_fmap_insert. change (f <$> <[j:=y]> pool) with (map f (<[j:=y]> pool)).
  rewrite IH. by destruct (sample_loop n (<[j:=y]> pool) (S i) draws).
Qed.

Lemma insert_append_perm {A} (t : list A) j x y :
  t !! j = Some x -> t ++ [y] ≡ₚ x :: <[j := y]> t.
Proof.
  intros H. rewrite insert_take_drop by (eapply lookup_lt_Some; eauto).
  rewrite <- (take_drop_middle t j x H) at 1.
  rewrite <- app_assoc. cbn [app].
  rewrite <- !Permutation_middle. constructor.
  by rewrite app_nil_r.
Qed.

(** The unselected items before round [i] are the first [n - i] of the pool.
    A round takes one of them out. *)
Lemma pool_round {A} n (pool : list A) i j x y :
  j < n - i ->
  pool !! j = Some x -> pool !! (n - i - 1) = Some y ->
  take (n - i) pool ≡ₚ x :: take (n - S i) (<[j := y]> pool).
Proof.
  intros Hj Hx Hy.
  replace (n - i) with (S (n - S i)) by lia.
  replace (n - i - 1) with (n - S i) in Hy by lia.
  rewrite (take_S_r _ _ y) by done.
  destruct (decide (j = n - S i)) as [->|Hne].
  - rewrite take_insert_ge by lia. assert (x = y) as -> by congruence.
    by rewrite <- Permutation_cons_append.
  - rewrite take_insert_lt by lia.
    apply insert_append_perm. by rewrite lookup_take_lt by lia.
Qed.

Lemma draws_from_cons n i j draws :
  draws_from n i (j :: draws) <-> j < n - i /\ draws_from n (S i) draws.
Proof.
  unfold draws_from. split.
  - intros H. split.
    + specialize (H 0 j eq_refl). by rewrite Nat.add_0_r in H.
    + intros t j' Ht. specialize (H (S t) j' Ht).
      by replace (i + S t) with (S i + t) in H by lia.
  - intros [Hj H] [|t] j' Ht.
    + injection Ht as <-. by rewrite Nat.add_0_r.
    + specialize (H t j' Ht). by replace (i + S t) with (S i + t) by lia.
Qed.

Lemma pool_lookups {A} n (pool : list A) i j :
  length pool = n -> j < n - i ->
  exists x y, pool !! j = Some x /\ pool !! (n - i - 1) = Some y.
Proof.
  intros Hlen Hj.
  destruct (lookup_lt_is_Some_2 pool j) as [x Hx]; [lia|].
  destruct (lookup_lt_is_Some_2 pool (n - i - 1)) as [y Hy]; [lia|].
  eauto.
Qed.

(** The rounds select distinct unselected items. *)
Lemma sample_loop_distinct {A} n (pool : list A) i draws :
  length pool = n -> NoDup (take (n - i) pool) -> draws_from n i draws ->
  exists xs,
    sample_loop n pool i draws = Ok xs /\
    length xs = length draws /\ NoDup xs /\
    forall x, x ∈ xs -> x ∈ take (n - i) pool.
Proof.
  revert pool i. induction draws as [|j draws IH]; intros pool i Hlen Hnd Hd.
  - exists []. split; [done|]. split; [done|]. split; [constructor|].
    intros x Hx. by apply elem_of_nil in Hx.
  - apply draws_from_cons in Hd as [Hj Hd].
    destruct (pool_lookups n pool i j Hlen Hj) as (x & y & Hx & Hy).
    pose proof (pool_round n pool i j x y Hj Hx Hy) as Hperm.
    rewrite Hperm in Hnd. apply NoDup_cons in Hnd as [Hfresh Hnd].
    destruct (IH (<[j := y]> pool) (S i)) as (xs & Hrun & Hl & Hnd' & Hin);
      [by rewrite length_insert | done..|].
    exists (x :: xs). cbn [sample_loop]. unfold getitem. rewrite Hx, Hy.
    cbn [bind]. rewrite Hrun. cbn [bind]. split; [done|].
    split; [cbn; by rewrite Hl|]. split.
    + apply NoDup_cons. split; [|done]. intros Hxin. apply Hfresh. by apply Hin.
    + intros x' Hx'. rewrite Hperm. apply elem_of_cons in Hx' as [->|Hx'].
      * apply list_elem_of_here.
      * apply list_elem_of_further. by apply Hin.
Qed.

(** Different draws select different items. *)
Lemma sample_loop_inj {A} n (pool : list A) i d1 d2 xs :
  length pool = n -> NoDup (take (n - i) pool) ->
  draws_from n i d1 -> draws_from n i d2 ->
  sample_loop n pool i d1 = Ok xs -> sample_loop n pool i d2 = Ok xs ->
  d1 = d2.
Proof.
  revert pool i d2 xs.
  induction d1 as [|j1 d1 IH]; intros pool i d2 xs Hlen Hnd H1 H2.
  - cbn [sample_loop]. intros [= <-]. destruct d2 as [|j2 d2]; [done|].
    cbn [sample_loop]. intros Hrun.
    destruct (getitem pool j2); [|done]. cbn [bind] in Hrun.
    destruct (getitem pool (n - i - 1)); [|done]. cbn [bind] in Hrun.
    destruct (sample_loop _ _ _ d2); done.
  - apply draws_from_cons in H1 as [Hj1 H1].
    destruct (pool_lookups n pool i j1 Hlen Hj1) as (x1 & y & Hx1 & Hy).
    cbn [sample_loop]. unfold getitem. rewrite Hx1, Hy. cbn [bind].
    destruct (sample_loop n (<[j1 := y]> pool) (S i) d1) as [xs1|] eqn:Hr1; [|done].
    cbn [bind]. intros [= <-].
    destruct d2 as [|j2 d2]; [done|].
    apply draws_from_cons in H2 as [Hj2 H2].
    destruct (pool_lookups n pool i j2 Hlen Hj2) as (x2 & y' & Hx2 & Hy').
    assert (y' = y) as -> by congruence.
    cbn [sample_loop]. unfold getitem. rewrite Hx2, Hy. cbn [bind].
    destruct (sample_loop n (<[j2 := y]> pool) (S i) d2) as [xs2|] eqn:Hr2; [|done].
    cbn [bind]. intros [= -> ->].
    assert (j2 = j1) as ->.
    { apply (NoDup_lookup _ _ _ x1 Hnd); by rewrite lookup_take_lt by lia. }
    f_equal. apply (IH (<[j1 := y]> pool) (S i) d2 xs1); try done.
    + by rewrite length_insert.
    + pose proof (pool_round n pool i j1 x1 y Hj1 Hx1 Hy) as Hperm.
      rewrite Hperm in Hnd. by apply NoDup_cons in Hnd as [_ Hnd].
Qed.

(** Every ordered choice of distinct unselected items is selected by some
    draws. *)
Lemma sample_loop_surj {A} n (pool : list A) i xs :
  length pool = n -> NoDup (take (n - i) pool) ->
  NoDup xs -> (forall x, x ∈ xs -> x ∈ take (n - i) pool) ->
  exists draws,
    length draws = length xs /\ draws_from n i draws /\
    sample_loop n pool i draws = Ok xs.
Proof.
  revert pool i. induction xs as [|x xs IH]; intros pool i Hlen Hnd Hxs Hin.
  - exists []. split; [done|]. split; [|done]. intros t j Ht. done.
  - apply NoDup_cons in Hxs as [Hx Hxs].
    destruct (list_elem_of_lookup_1 _ x (Hin x (list_elem_of_here _ _))) as [j Hj].
    apply lookup_take_Some in Hj as [Hpj Hlt].
    destruct (pool_lookups n pool i j Hlen Hlt) as (x' & y & Hx' & Hy).
    assert (x' = x) as -> by congruence.
    pose proof (pool_round n pool i j x y Hlt Hx' Hy) as Hperm.
    rewrite Hperm in Hnd. apply NoDup_cons in Hnd as [Hfresh Hnd].
    destruct (IH (<[j := y]> pool) (S i)) as (draws & Hl & Hd & Hrun);
      [by rewrite length_insert | done | done | |].
    { intros x0 Hx0. specialize (Hin x0 (list_elem_of_further _ _ _ Hx0)).
      rewrite Hperm in Hin. apply elem_of_cons in Hin as [->|Hin]; done. }
    exists (j :: draws). split; [cbn; by rewrite Hl|]. split.
    + by apply draws_from_cons.
    + cbn [sample_loop]. unfold getitem. rewrite Hx', Hy. cbn [bind].
      by rewrite Hrun.
Qed.

Lemma random_sample_too_large {A} (population : list A) k draws :
  (Z.of_nat (length population) < k)%Z ->
  random_sample population k draws = Raise ValueError.
Proof.
  intros Hk. unfold random_sample.
  destruct (Z.leb_spec k (Z.of_nat (length population))); [lia|].
  by rewrite andb_false_r.
Qed.

Lemma random_sample_negative {A} (population : list A) k draws :
  (k < 0)%Z -> random_sample population k draws = Raise ValueError.
Proof.
  intros Hk. unfold random_sample. by destruct (Z.leb_spec 0 k); [lia|].
Qed.

Lemma random_sample_valid {A} (population : list A) k draws :
  (0 <= k <= Z.of_nat (length population))%Z ->
  length draws = Z.to_nat k ->
  random_sample population k draws
  = sample_loop (length population) population 0 draws.
Proof.
  intros Hk Hl. unfold random_sample.
  destruct (Z.leb_spec 0 k); [|lia].
  destruct (Z.leb_spec k (Z.of_nat (length population))); [|lia].
  cbn [andb negb]. by rewrite take_ge by lia.
Qed.

Lemma list_as_map_seq (l : list nat) :
  l = map (fun j => default 0 (l !! j)) (seq 0 (length l)).
Proof.
  apply list_eq. intros i.
  change (map ?f ?l) with (f <$> l). rewrite list_lookup_fmap.
  destruct (decide (i < length l)) as [Hi|Hi].
  - rewrite lookup_seq_lt by done. cbn.
    destruct (lookup_lt_is_Some_2 l i Hi) as [x ->]. done.
  - rewrite lookup_seq_ge by lia. cbn. apply lookup_ge_None. lia.
Qed.

Lemma take_all_seq n : take (n - 0) (seq 0 n) = seq 0 n.
Proof. apply take_ge. rewrite length_seq. lia. Qed.

Lemma selection_arrangement n (k : Z) draws :
  (0 <= k <= Z.of_nat n)%Z -> valid_draws n (Z.to_nat k) draws ->
  exists js,
    sample_loop n (seq 0 n) 0 draws = Ok js /\
    selection n k draws = Ok js /\ arrangement n (Z.to_nat k) js.
Proof.
  intros Hk [Hl Hd]. unfold selection.
  rewrite random_sample_valid by (rewrite ?length_seq; done).
  rewrite length_seq.
  destruct (sample_loop_distinct n (seq 0 n) 0 draws)
    as (js & Hrun & Hlen & Hnd & Hin);
    [apply length_seq | rewrite take_all_seq; apply NoDup_seq | done |].
  exists js. split; [done|]. split; [done|]. split; [congruence|].
  split; [done|]. apply Forall_forall. intros j Hj.
  specialize (Hin j Hj). rewrite take_all_seq in Hin.
  apply elem_of_seq in Hin. lia.
Qed.

(** ** Claim C10 *)


Lemma ex_valid_draws : valid_draws 5 2 [3; 0].
Proof.
  split; [reflexivity|].
  intros t j Ht. destruct t as [|[|t]]; cbn in Ht; [| |discriminate];
    injection Ht as <-; cbn; lia.
Defined.


(** The sample in the example: the draws 3 and 0 select rows 3 and 0. *)
Example sample_example :
  sample (ds_of_size 5) 2 [3; 0] = Ok (mkDataSet [3; 0] 0 [] "").
Proof. reflexivity. Qed.

(** ** [copy] *)

Lemma copy_shares_rows self : data (copy self) = data self.
Proof. reflexivity. Qed.

(** ** Claim C4 *)

(** C4: the code does not edit.  Constructing an [EditedKNN] returns the
    predictor that the [KNN] constructor builds, over the training data and
    the rows it was given; on the five training rows of [ex_train] with
    [k = 1] the row of class B, whose nearest neighbour has class A, is
    still among the reference rows. *)
Theorem EditedKNN_keeps_every_training_row :
  (forall training_data k st,
     EditedKNN_init training_data k st = (KNN_init training_data k, st)) /\
  data (training_data (fst (EditedKNN_init ex_train 1 ex_train_store)))
  = [0; 1; 2; 3; 4] /\
  snd (EditedKNN_init ex_train 1 ex_train_store) !! 2
  = Some [VNum 3; VStr "B"].
Proof. split; [reflexivity|]. split; reflexivity. Qed.

(** * Further properties of the code *)

(** ** [remove_header] *)

Lemma slice_bound_nonneg n c :
  (0 <= c)%Z -> slice_bound n c = Nat.min (Z.to_nat c) n.
Proof.
  intros H. unfold slice_bound. destruct (Z.ltb_spec c 0); lia.
Qed.

Lemma slice_bound_neg n c :
  (c < 0)%Z -> slice_bound n c = n - Z.to_nat (- c).
Proof.
  intros H. unfold slice_bound. destruct (Z.ltb_spec c 0); lia.
Qed.

Lemma drop_min {A} (l : list A) k : drop (Nat.min k (length l)) l = drop k l.
Proof.
  destruct (decide (k <= length l)) as [H|H].
  - by rewrite Nat.min_l.
  - rewrite Nat.min_r by lia. by rewrite drop_all, drop_ge by lia.
Qed.

(** X1: [remove_header(length)] with [length >= 0] drops the first [length]
    rows, all of them when there are no more; with a negative [length] it
    keeps the last [- length] rows only, all of them when there are no more.
    Two removals of [a >= 0] and [b >= 0] rows are one removal of [a + b]
    rows.  The columns and the file name stay. *)
Theorem remove_header_drops_rows self (a b : Z) :
  ((0 <= a)%Z ->
     data (remove_header self a) = drop (Z.to_nat a) (data self) /\
     length (data (remove_header self a)) = length (data self) - Z.to_nat a) /\
  ((a < 0)%Z ->
     data (remove_header self a)
     = drop (length (data self) - Z.to_nat (- a)) (data self) /\
     length (data (remove_header self a))
     = Nat.min (Z.to_nat (- a)) (length (data self))) /\
  ((0 <= a)%Z -> (0 <= b)%Z ->
     remove_header (remove_header self a) b = remove_header self (a + b)) /\
  class_col (remove_header self a) = class_col self /\
  attr_cols (remove_header self a) = attr_cols self /\
  filename (remove_header self a) = filename self.
Proof.
  assert (Hdrop : forall c, (0 <= c)%Z ->
            slice_from (data self) c = drop (Z.to_nat c) (data self)).
  { intros c Hc. unfold slice_from. by rewrite slice_bound_nonneg, drop_min. }
  split; [|split; [|split]].
  - intros Ha. cbn [remove_header data]. rewrite Hdrop by done.
    split; [done | apply length_drop].
  - intros Ha. cbn [remove_header data]. unfold slice_from.
    rewrite slice_bound_neg by done. split; [done|].
    rewrite length_drop. lia.
  - intros Ha Hb. unfold remove_header. cbn [data class_col attr_cols filename].
    f_equal. rewrite (Hdrop a), (Hdrop (a + b)%Z) by lia.
    unfold slice_from. rewrite slice_bound_nonneg, drop_min, drop_drop by done.
    f_equal. lia.
  - done.
Qed.

Lemma remove_header_drops_rows_witness :
  (data (remove_header (ds_of_size 5) 2) = drop 2 (seq 0 5) /\
   length (data (remove_header (ds_of_size 5) 2)) = 5 - 2) /\
  (data (remove_header (ds_of_size 5) (-2)) = drop (5 - 2) (seq 0 5) /\
   length (data (remove_header (ds_of_size 5) (-2))) = Nat.min 2 5) /\
  remove_header (remove_header (ds_of_size 5) 2) 1
  = remove_header (ds_of_size 5) (2 + 1).
Proof.
  destruct (remove_header_drops_rows (ds_of_size 5) 2 1) as (H1 & _ & H3 & _).
  destruct (remove_header_drops_rows (ds_of_size 5) (-2) 0) as (_ & H2 & _).
  split; [apply H1; lia|]. split; [apply H2; lia|]. apply H3; lia.
Defined.

(** ** [partition] for any fraction *)



(** ** [validation_folds] at the edges *)

Lemma validation_folds_one self :
  validation_folds self 1
  = Ok [mkFold (mkDataSet (data self) (class_col self) (attr_cols self) "")
              (mkDataSet [] (class_col self) (attr_cols self) "")].
Proof.
  change 1%Z with (Z.of_nat 1).
  rewrite (validation_folds_ok self 1) by lia. cbn [seq map].
  unfold fold_of. f_equal. f_equal. f_equal. f_equal.
  unfold section. rewrite cut_0. change (0 + 1) with 1. rewrite cut_n by lia.
  unfold chunk. rewrite drop_0. apply take_ge. lia.
Qed.

(** X3: [validation_folds(0)] raises [ZeroDivisionError] and a negative [n]
    gives no fold at all.  [validation_folds(1)] gives one fold that tests on
    every row and trains on none.  With more folds than rows there is no
    error: there are [n] folds, and no test set has more than one row. *)
Theorem validation_folds_edge_cases self :
  validation_folds self 0 = Raise ZeroDivisionError /\
  (forall n, (n < 0)%Z -> validation_folds self n = Ok []) /\
  (exists f,
     validation_folds self 1 = Ok [f] /\
     data (test f) = data self /\ data (train f) = []) /\
  (forall n : nat, length (data self) < n ->
     exists folds,
       validation_folds self (Z.of_nat n) = Ok folds /\
       length folds = n /\
       forall f, f ∈ folds -> length (data (test f)) <= 1).
Proof.
  split; [done|]. split; [|split].
  - intros n Hn. unfold validation_folds.
    destruct (Z.eqb_spec n 0); [lia|]. cbv zeta. unfold range.
    by replace (Z.to_nat n) with 0 by lia.
  - eexists. split; [apply validation_folds_one|]. done.
  - intros n Hn. exists (map (fold_of self n) (seq 0 n)).
    split; [apply validation_folds_ok; lia|].
    split; [by rewrite length_map, length_seq|].
    intros f Hf. apply list_elem_of_fmap in Hf as (i & -> & Hi).
    apply elem_of_seq in Hi. cbn [fold_of test data].
    rewrite length_section by lia.
    pose proof (cut_step (length (data self)) n i ltac:(lia)) as Hs.
    rewrite Nat.div_small in Hs by lia. lia.
Qed.

Lemma validation_folds_edge_cases_witness :
  validation_folds (ds_of_size 2) (-3) = Ok [] /\
  exists folds,
    validation_folds (ds_of_size 2) (Z.of_nat 5) = Ok folds /\
    length folds = 5 /\
    forall f, f ∈ folds -> length (data (test f)) <= 1.
Proof.
  destruct (validation_folds_edge_cases (ds_of_size 2)) as (_ & H1 & _ & H2).
  split; [apply H1; lia | apply H2; cbn; lia].
Defined.

Lemma concat_disjoint {A} (ls : list (list A)) i j a b x :
  NoDup (concat ls) -> i <> j ->
  ls !! i = Some a -> ls !! j = Some b -> x ∈ a -> x ∈ b -> False.
Proof.
  revert i j. induction ls as [|l ls IH]; intros i j Hnd Hij Ha Hb Hxa Hxb.
  - done.
  - cbn [concat] in Hnd. apply NoDup_app in Hnd as (Hl & Hdis & Hrest).
    assert (Hin : forall k c, ls !! k = Some c -> x ∈ c -> x ∈ concat ls).
    { intros k c Hc Hx. apply list_elem_of_In, in_concat. exists c.
      split; apply list_elem_of_In; [by eapply list_elem_of_lookup_2 | done]. }
    destruct i as [|i], j as [|j]; cbn in Ha, Hb; simplify_eq.
    + eapply Hdis; eauto.
    + eapply Hdis; eauto.
    + eapply (IH i j); eauto.
Qed.

(** X4: when the rows of the data set are distinct row objects and [n >= 1],
    every row is in the test set of exactly one fold, and no fold trains on
    a row that it tests on. *)
Theorem validation_folds_disjoint self (n : nat) :
  1 <= n -> NoDup (data self) ->
  exists folds,
    validation_folds self (Z.of_nat n) = Ok folds /\
    (forall l, l ∈ data self ->
       exists i f, folds !! i = Some f /\ l ∈ data (test f) /\
         forall j g, folds !! j = Some g -> l ∈ data (test g) -> j = i) /\
    (forall f l, f ∈ folds -> l ∈ data (test f) -> l ∉ data (train f)).
Proof.
  intros Hn Hnd. exists (map (fold_of self n) (seq 0 n)).
  split; [by apply validation_folds_ok|].
  assert (Hsec : forall i f, map (fold_of self n) (seq 0 n) !! i = Some f ->
            map (section self n) (seq 0 n) !! i = Some (data (test f))).
  { intros i f Hf. apply lookup_folds in Hf as [Hi ->].
    change (map ?g ?l) with (g <$> l). by rewrite list_lookup_fmap, lookup_seq_lt. }
  pose proof (sections_concat self n Hn) as Hcat.
  split.
  - intros l Hl. rewrite <- Hcat in Hl.
    apply list_elem_of_In, in_concat in Hl as (s & Hs & Hls).
    apply list_elem_of_In, list_elem_of_fmap in Hs as (i & -> & Hi).
    apply elem_of_seq in Hi. apply list_elem_of_In in Hls.
    exists i, (fold_of self n i). split; [|split; [done|]].
    { change (map ?g ?l) with (g <$> l). by rewrite list_lookup_fmap, lookup_seq_lt by lia. }
    intros j g Hg Hlg. destruct (decide (j = i)) as [|Hne]; [done|].
    exfalso. apply Hsec in Hg.
    eapply (concat_disjoint (map (section self n) (seq 0 n)) j i);
      [by rewrite Hcat | done | exact Hg | | exact Hlg | exact Hls].
    change (map ?g ?l) with (g <$> l). by rewrite list_lookup_fmap, lookup_seq_lt by lia.
  - intros f l Hf Hl Hl'. apply list_elem_of_fmap in Hf as (i & -> & Hi).
    apply elem_of_seq in Hi.
    rewrite <- (fold_of_perm self n i) in Hnd by lia.
    apply NoDup_app in Hnd as (_ & Hdis & _). by eapply Hdis.
Qed.

Lemma validation_folds_disjoint_witness :
  exists folds,
    validation_folds (ds_of_size 10) (Z.of_nat 4) = Ok folds /\
    (forall l, l ∈ data (ds_of_size 10) ->
       exists i f, folds !! i = Some f /\ l ∈ data (test f) /\
         forall j g, folds !! j = Some g -> l ∈ data (test g) -> j = i) /\
    (forall f l, f ∈ folds -> l ∈ data (test f) -> l ∉ data (train f)).
Proof.
  apply (validation_folds_disjoint (ds_of_size 10) 4); [lia|].
  apply (bool_decide_unpack _). vm_compute. exact I.
Defined.

(** ** [shuffle] *)

(** The rounds from [i] down exchange items at positions up to [i]: what
    they return is a permutation that leaves the positions above [i]
    alone. *)
Lemma shuffle_loop_perm {A} (x : list A) i draws :
  i < length x \/ i = 0 ->
  (forall t j, draws !! t = Some j -> j <= i - t) ->
  exists y,
    shuffle_loop x i draws = Ok y /\ y ≡ₚ x /\
    forall p, i < p -> y !! p = x !! p.
Proof.
  revert x draws. induction i as [|i IH]; intros x draws Hi Hd.
  - exists x. by destruct draws.
  - destruct draws as [|j draws]; [by exists x|].
    destruct Hi as [Hi|]; [|done].
    assert (Hj : j <= S i) by (specialize (Hd 0 j eq_refl); lia).
    destruct (lookup_lt_is_Some_2 x j) as [xj Hxj]; [lia|].
    destruct (lookup_lt_is_Some_2 x (S i)) as [xi Hxi]; [lia|].
    cbn [shuffle_loop]. unfold getitem. rewrite Hxj, Hxi. cbn [bind].
    destruct (IH (<[j := xi]> (<[S i := xj]> x)) draws) as (y & Hrun & Hperm & Hfix).
    + left. rewrite !length_insert. lia.
    + intros t j' Ht. specialize (Hd (S t) j' Ht). lia.
    + exists y. split; [done|]. split.
      * rewrite Hperm. by apply Permutation_insert_swap.
      * intros p Hp. rewrite Hfix by lia.
        by rewrite !list_lookup_insert_ne by lia.
Qed.

Lemma valid_draws_shuffle n draws :
  valid_draws n (n - 1) draws ->
  forall t j, draws !! t = Some j -> j <= n - 1 - t.
Proof.
  intros [Hl Hd] t j Ht. specialize (Hd t j Ht).
  apply lookup_lt_Some in Ht. lia.
Qed.

(** X5: [shuffle] returns, for the draws that [randbelow] can give, a data
    set whose rows are a permutation of the rows it had: no row is lost or
    repeated, and the columns and the file name stay. *)
Theorem shuffle_permutes_rows self draws :
  valid_draws (length (data self)) (length (data self) - 1) draws ->
  exists self',
    shuffle self draws = Ok self' /\
    data self' ≡ₚ data self /\
    length (data self') = length (data self) /\
    class_col self' = class_col self /\
    attr_cols self' = attr_cols self /\
    filename self' = filename self.
Proof.
  intros Hv.
  destruct (shuffle_loop_perm (data self) (length (data self) - 1) draws)
    as (y & Hrun & Hperm & _).
  - destruct (data self); cbn; [by right | left; lia].
  - by apply valid_draws_shuffle.
  - exists (mkDataSet y (class_col self) (attr_cols self) (filename self)).
    unfold shuffle, random_shuffle. rewrite Hrun. cbn [bind data].
    split; [done|]. split; [done|]. split; [by rewrite Hperm | done].
Qed.

Lemma ex_shuffle_draws : valid_draws 4 (4 - 1) [1; 0; 1].
Proof.
  split; [reflexivity|].
  intros t j Ht. destruct t as [|[|[|t]]]; cbn in Ht; [| | |discriminate];
    injection Ht as <-; cbn; lia.
Defined.

Lemma shuffle_permutes_rows_witness :
  exists self',
    shuffle (ds_of_size 4) [1; 0; 1] = Ok self' /\
    data self' ≡ₚ data (ds_of_size 4) /\
    length (data self') = length (data (ds_of_size 4)) /\
    class_col self' = class_col (ds_of_size 4) /\
    attr_cols self' = attr_cols (ds_of_size 4) /\
    filename self' = filename (ds_of_size 4).
Proof. exact (shuffle_permutes_rows (ds_of_size 4) [1; 0; 1] ex_shuffle_draws). Defined.

Example shuffle_example :
  shuffle (ds_of_size 4) [1; 0; 1] = Ok (mkDataSet [2; 3; 0; 1] 0 [] "").
Proof. reflexivity. Qed.

Lemma shuffle_loop_map {A B} (f : A -> B) x i draws :
  shuffle_loop (map f x) i draws
  = match shuffle_loop x i draws with
    | Ok y => Ok (map f y)
    | Raise e => Raise e
    end.
Proof.
  revert x draws. induction i as [|i IH]; intros x draws; [by destruct draws|].
  destruct draws as [|j draws]; [done|].
  cbn [shuffle_loop]. unfold getitem.
  change (map f x) with (f <$> x). rewrite !list_lookup_fmap.
  destruct (x !! j) as [xj|]; [|done]. cbn [fmap option_fmap option_map bind].
  destruct (x !! S i) as [xi|]; [|done]. cbn [fmap option_fmap option_map bind].
  rewrite <- !list_fmap_insert. apply IH.
Qed.

Lemma swap_lookup {A} (x : list A) i j xi xj :
  x !! i = Some xi -> x !! j = Some xj ->
  <[j := xi]> (<[i := xj]> x) !! i = Some xj.
Proof.
  intros Hi Hj. destruct (decide (j = i)) as [->|Hne].
  - rewrite list_lookup_insert_eq by (rewrite length_insert; by eapply lookup_lt_Some).
    congruence.
  - rewrite list_lookup_insert_ne by done.
    apply list_lookup_insert_eq. by eapply lookup_lt_Some.
Qed.

(** Different draws shuffle distinct items differently. *)
Lemma shuffle_loop_inj {A} (x : list A) i d1 d2 :
  NoDup x -> i < length x \/ i = 0 ->
  length d1 = i -> length d2 = i ->
  (forall t j, d1 !! t = Some j -> j <= i - t) ->
  (forall t j, d2 !! t = Some j -> j <= i - t) ->
  shuffle_loop x i d1 = shuffle_loop x i d2 -> d1 = d2.
Proof.
  revert x d1 d2. induction i as [|i IH]; intros x d1 d2 Hnd Hi Hl1 Hl2 Hd1 Hd2.
  - destruct d1, d2; done.
  - destruct d1 as [|j1 d1], d2 as [|j2 d2]; try done.
    destruct Hi as [Hi|]; [|done].
    assert (Hj1 : j1 <= S i) by (specialize (Hd1 0 j1 eq_refl); lia).
    assert (Hj2 : j2 <= S i) by (specialize (Hd2 0 j2 eq_refl); lia).
    destruct (lookup_lt_is_Some_2 x j1) as [x1 Hx1]; [lia|].
    destruct (lookup_lt_is_Some_2 x j2) as [x2 Hx2]; [lia|].
    destruct (lookup_lt_is_Some_2 x (S i)) as [xi Hxi]; [lia|].
    cbn [shuffle_loop]. unfold getitem. rewrite Hx1, Hx2, Hxi. cbn [bind].
    set (y1 := <[j1 := xi]> (<[S i := x1]> x)).
    set (y2 := <[j2 := xi]> (<[S i := x2]> x)).
    assert (Hb1 : forall t j, d1 !! t = Some j -> j <= i - t)
      by (intros t j Ht; specialize (Hd1 (S t) j Ht); lia).
    assert (Hb2 : forall t j, d2 !! t = Some j -> j <= i - t)
      by (intros t j Ht; specialize (Hd2 (S t) j Ht); lia).
    destruct (shuffle_loop_perm y1 i d1) as (z1 & Hr1 & _ & Hf1);
      [left; unfold y1; rewrite !length_insert; lia | done |].
    destruct (shuffle_loop_perm y2 i d2) as (z2 & Hr2 & _ & Hf2);
      [left; unfold y2; rewrite !length_insert; lia | done |].
    intros Heq.
    assert (z1 = z2) as -> by congruence.
    assert (Hsame : x !! j1 = x !! j2).
    { rewrite Hx1, Hx2.
      rewrite <- (swap_lookup x (S i) j1 xi x1 Hxi Hx1).
      rewrite <- (swap_lookup x (S i) j2 xi x2 Hxi Hx2).
      fold y1 y2. by rewrite <- Hf1, <- Hf2 by lia. }
    assert (j1 = j2) as ->.
    { apply (NoDup_lookup x _ _ x1 Hnd); congruence. }
    assert (x1 = x2) as -> by congruence.
    cbn in Hl1, Hl2.
    f_equal. apply (IH y2); [| | lia | lia | done | done | done].
    + unfold y2. by rewrite Permutation_insert_swap.
    + left. unfold y2. rewrite !length_insert. lia.
Qed.

Lemma agree_but_head {A} (x y : list A) :
  y ≡ₚ x -> (forall p, 0 < p -> y !! p = x !! p) -> y = x.
Proof.
  intros Hperm Hagree. destruct x as [|x0 xt].
  - by apply Permutation_nil_r.
  - destruct y as [|y0 yt].
    { apply Permutation_nil_l in Hperm. done. }
    assert (yt = xt) as ->.
    { apply list_eq. intros p. apply (Hagree (S p)). lia. }
    f_equal. by apply (inj (.:: xt)).
Qed.

(** Every arrangement of distinct items is the shuffle of some draws. *)
Lemma shuffle_loop_surj {A} (x y : list A) i :
  NoDup x -> i < length x \/ i = 0 ->
  y ≡ₚ x -> (forall p, i < p -> y !! p = x !! p) ->
  exists draws,
    length draws = i /\
    (forall t j, draws !! t = Some j -> j <= i - t) /\
    shuffle_loop x i draws = Ok y.
Proof.
  revert x. induction i as [|i IH]; intros x Hnd Hi Hperm Hagree.
  - exists []. split; [done|]. split; [done|].
    cbn. f_equal. symmetry. by apply agree_but_head.
  - destruct Hi as [Hi|]; [|done].
    assert (Hly : length y = length x) by (by rewrite Hperm).
    destruct (lookup_lt_is_Some_2 y (S i)) as [v Hv]; [lia|].
    destruct (lookup_lt_is_Some_2 x (S i)) as [xi Hxi]; [lia|].
    assert (Hvx : v ∈ x).
    { rewrite <- Hperm. by eapply list_elem_of_lookup_2. }
    apply list_elem_of_lookup_1 in Hvx as [j Hj].
    assert (Hjle : j <= S i).
    { destruct (decide (j <= S i)) as [|Hgt]; [done|]. exfalso.
      assert (Hyj : y !! j = Some v) by (rewrite Hagree by lia; done).
      assert (NoDup y) as Hndy by (by rewrite Hperm).
      pose proof (NoDup_lookup y _ _ v Hndy Hyj Hv). lia. }
    set (x' := <[j := xi]> (<[S i := v]> x)).
    assert (Hx' : x' ≡ₚ x) by (by apply Permutation_insert_swap).
    destruct (IH x') as (draws & Hl & Hb & Hrun).
    + by rewrite Hx'.
    + left. unfold x'. rewrite !length_insert. lia.
    + by rewrite Hx'.
    + intros p Hp. destruct (decide (p = S i)) as [->|Hne].
      * unfold x'. by rewrite (swap_lookup x (S i) j xi v).
      * rewrite Hagree by lia. unfold x'.
        by rewrite !list_lookup_insert_ne by lia.
    + exists (j :: draws). split; [cbn; by rewrite Hl|]. split.
      * intros [|t] j' Ht.
        -- injection Ht as <-. lia.
        -- specialize (Hb t j' Ht). lia.
      * cbn [shuffle_loop]. unfold getitem. rewrite Hj, Hxi. by cbn [bind].
Qed.

Lemma shuffle_bounds_valid n draws :
  length draws = n - 1 ->
  (forall t j, draws !! t = Some j -> j <= n - 1 - t) ->
  valid_draws n (n - 1) draws.
Proof.
  intros Hl Hb. split; [done|]. intros t j Ht.
  specialize (Hb t j Ht). apply lookup_lt_Some in Ht. lia.
Qed.

Lemma seq_head_or_short n : n - 1 < length (seq 0 n) \/ n - 1 = 0.
Proof. rewrite length_seq. lia. Qed.

(** X6: [shuffle] is uniform.  The rows it returns are the rows at the
    positions that the shuffle of [0, 1, ..., n - 1] returns, and the
    sequences of draws that [randbelow] can give, each equally likely,
    correspond one to one to the arrangements of the [n] positions. *)
Theorem shuffle_uniform self :
  let n := length (data self) in
  (forall draws, valid_draws n (n - 1) draws ->
     exists js self',
       random_shuffle (seq 0 n) draws = Ok js /\ js ≡ₚ seq 0 n /\
       shuffle self draws = Ok self' /\
       Some <$> data self' = (data self !!.) <$> js) /\
  (forall d1 d2,
     valid_draws n (n - 1) d1 -> valid_draws n (n - 1) d2 ->
     random_shuffle (seq 0 n) d1 = random_shuffle (seq 0 n) d2 -> d1 = d2) /\
  (forall js, js ≡ₚ seq 0 n ->
     exists draws,
       valid_draws n (n - 1) draws /\ random_shuffle (seq 0 n) draws = Ok js).
Proof.
  intros n. unfold random_shuffle. rewrite length_seq. split; [|split].
  - intros draws Hv.
    destruct (shuffle_loop_perm (seq 0 n) (n - 1) draws)
      as (js & Hrun & Hperm & _);
      [apply seq_head_or_short | by apply valid_draws_shuffle |].
    set (f := fun j => default 0 (data self !! j)).
    exists js, (mkDataSet (map f js) (class_col self) (attr_cols self) (filename self)).
    split; [done|]. split; [done|]. split.
    + unfold shuffle, random_shuffle. fold n.
      rewrite (list_as_map_seq (data self)) at 1. fold n f.
      by rewrite shuffle_loop_map, Hrun.
    + cbn [data]. change (map f js) with (f <$> js).
      rewrite <- list_fmap_compose. apply list_fmap_ext. intros i j Hj.
      cbn. unfold f.
      destruct (lookup_lt_is_Some_2 (data self) j) as [x ->]; [|done].
      apply list_elem_of_lookup_2 in Hj. rewrite Hperm in Hj.
      apply elem_of_seq in Hj. fold n. lia.
  - intros d1 d2 Hv1 Hv2.
    apply shuffle_loop_inj;
      [apply NoDup_seq | apply seq_head_or_short | apply Hv1 | apply Hv2
      | by apply valid_draws_shuffle | by apply valid_draws_shuffle].
  - intros js Hperm.
    destruct (shuffle_loop_surj (seq 0 n) js (n - 1)) as (draws & Hl & Hb & Hrun);
      [apply NoDup_seq | apply seq_head_or_short | done | |].
    { intros p Hp. rewrite !(lookup_ge_None_2 _ p); [done | |].
      - rewrite length_seq. lia.
      - rewrite Hperm, length_seq. lia. }
    exists draws. split; [by apply shuffle_bounds_valid | done].
Qed.

Lemma shuffle_uniform_witness :
  exists js self',
    random_shuffle (seq 0 4) [1; 0; 1] = Ok js /\ js ≡ₚ seq 0 4 /\
    shuffle (ds_of_size 4) [1; 0; 1] = Ok self' /\
    Some <$> data self' = (data (ds_of_size 4) !!.) <$> js.
Proof.
  destruct (shuffle_uniform (ds_of_size 4)) as (H & _).
  exact (H [1; 0; 1] ex_shuffle_draws).
Defined.

(** ** [convert_attribute] *)

Lemma alter_same (f : row -> row) (st : store) l r :
  st !! l = Some r -> f r = r -> alter f l st = st.
Proof.
  intros Hr Hf. apply map_eq. intros l'.
  destruct (decide (l = l')) as [<-|Hne].
  - rewrite lookup_alter_eq, Hr. cbn. by rewrite Hf.
  - by rewrite lookup_alter_ne.
Qed.

Lemma convert_attribute_step_row col value_map (st : store) l r :
  st !! l = Some r -> col < length r ->
  convert_attribute_step col value_map st l
  = Ok (alter (convert_row col value_map) l st).
Proof.
  intros Hr Hlt. destruct (lookup_lt_is_Some_2 r col Hlt) as [v Hv].
  assert (Hrow : convert_row col value_map r
                 = match dict_get value_map v with
                   | Some v' => <[col := v']> r
                   | None => r
                   end) by (unfold convert_row; by rewrite Hv).
  unfold convert_attribute_step, deref, getitem, setitem.
  rewrite Hr. cbn [bind]. rewrite Hv. cbn [bind].
  destruct (dict_get value_map v) as [v'|] eqn:Hget.
  - rewrite decide_True by done. cbn [bind]. f_equal.
    rewrite <- (alter_lookup_insert (convert_row col value_map) st l r Hr).
    by rewrite Hrow.
  - f_equal. symmetry. by apply (alter_same _ st l r Hr).
Qed.

Lemma length_convert_row col value_map r :
  length (convert_row col value_map r) = length r.
Proof.
  unfold convert_row. destruct (r !! col) as [v|]; [|done].
  destruct (dict_get value_map v); [apply length_insert | done].
Qed.

Lemma convert_attribute_loop col value_map ls (st : store) :
  NoDup ls ->
  (forall l, l ∈ ls -> exists r, st !! l = Some r /\ col < length r) ->
  for_each (convert_attribute_step col value_map) ls st
  = Ok (update_rows (convert_row col value_map) ls st).
Proof.
  intros Hnd. revert st. induction Hnd as [|l ls Hl Hnd IH]; intros st H; [done|].
  destruct (H l) as (r & Hr & Hlt); [apply list_elem_of_here|].
  cbn [for_each update_rows].
  rewrite (convert_attribute_step_row _ _ _ _ r) by done. cbn [bind].
  apply IH. intros l' Hl'.
  destruct (H l') as (r' & Hr' & Hlt'); [by apply list_elem_of_further|].
  exists r'. split; [|done]. rewrite lookup_alter_ne; [done|]. by intros ->.
Qed.

(** X7: on a data set of distinct row objects that all have the column,
    [convert_attribute(col, value_map)] returns; it replaces the field of a
    row in that column by its value in the map when the field is a key of
    the map and leaves it as it is when not, and it changes no other column
    and no row outside the data set. *)
Theorem convert_attribute_maps_column self col value_map (st : store) :
  NoDup (data self) ->
  (forall l, l ∈ data self -> exists r, st !! l = Some r /\ col < length r) ->
  exists st',
    convert_attribute self col value_map st = Ok st' /\
    (forall l, l ∉ data self -> st' !! l = st !! l) /\
    (forall l r v, l ∈ data self -> st !! l = Some r -> r !! col = Some v ->
       exists r',
         st' !! l = Some r' /\
         length r' = length r /\
         r' !! col = Some (default v (dict_get value_map v)) /\
         forall c, c <> col -> r' !! c = r !! c).
Proof.
  intros Hnd Hrows.
  exists (update_rows (convert_row col value_map) (data self) st).
  split; [by apply convert_attribute_loop|]. split.
  - intros l Hl. by rewrite lookup_update_rows, decide_False by done.
  - intros l r v Hl Hr Hv. exists (convert_row col value_map r).
    rewrite lookup_update_rows, decide_True, Hr by done.
    split; [done|]. split; [apply length_convert_row|].
    unfold convert_row. rewrite Hv.
    destruct (dict_get value_map v) as [v'|]; cbn [default]; [|done].
    split.
    + apply list_lookup_insert_eq. by eapply lookup_lt_Some.
    + intros c Hc. by apply list_lookup_insert_ne.
Qed.

Lemma ex_car_rows :
  forall l, l ∈ data ex_car_ds ->
    exists r, ex_car_store !! l = Some r /\ 0 < length r.
Proof.
  apply Forall_forall.
  repeat first [ apply Forall_nil_2 | apply Forall_cons_2 ];
    eexists; (split; [reflexivity | cbn; lia]).
Defined.

Lemma convert_attribute_maps_column_witness :
  exists st',
    convert_attribute ex_car_ds 0 ex_car_map ex_car_store = Ok st' /\
    (forall l, l ∉ data ex_car_ds -> st' !! l = ex_car_store !! l) /\
    (forall l r v, l ∈ data ex_car_ds -> ex_car_store !! l = Some r ->
       r !! 0 = Some v ->
       exists r',
         st' !! l = Some r' /\
         length r' = length r /\
         r' !! 0 = Some (default v (dict_get ex_car_map v)) /\
         forall c, c <> 0 -> r' !! c = r !! c).
Proof.
  apply (convert_attribute_maps_column ex_car_ds 0 ex_car_map ex_car_store).
  - apply (bool_decide_unpack _). vm_compute. exact I.
  - exact ex_car_rows.
Defined.

(** X8: [convert_attribute] raises [IndexError] when a row of the data set
    does not have the column. *)
Theorem convert_attribute_short_row self col value_map (st : store) :
  (forall l, l ∈ data self -> is_Some (st !! l)) ->
  (exists l r, l ∈ data self /\ st !! l = Some r /\ length r <= col) ->
  convert_attribute self col value_map st = Raise IndexError.
Proof.
  unfold convert_attribute. generalize (data self) as ls. intros ls. revert st.
  induction ls as [|l0 ls IH]; intros st Halloc (l & r & Hl & Hr & Hshort).
  - by apply elem_of_nil in Hl.
  - destruct (Halloc l0 (list_elem_of_here _ _)) as [r0 Hr0].
    cbn [for_each]. destruct (decide (col < length r0)) as [Hlong|Hlong].
    + rewrite (convert_attribute_step_row _ _ _ _ r0) by done. cbn [bind].
      assert (Hne : l <> l0) by (intros ->; assert (r = r0) by congruence; subst; lia).
      apply IH.
      * intros l' Hl'. destruct (decide (l' = l0)) as [->|Hne'].
        -- rewrite lookup_alter_eq, Hr0. by eexists.
        -- rewrite lookup_alter_ne by done.
           apply Halloc. by apply list_elem_of_further.
      * exists l, r. apply elem_of_cons in Hl as [|Hl]; [done|].
        split; [done|]. split; [|done]. by rewrite lookup_alter_ne.
    + unfold convert_attribute_step, deref, getitem. rewrite Hr0. cbn [bind].
      by rewrite lookup_ge_None_2 by lia.
Qed.

Lemma ex_car_allocated : forall l, l ∈ data ex_car_ds -> is_Some (ex_car_store !! l).
Proof.
  apply Forall_forall.
  repeat first [ apply Forall_nil_2 | apply Forall_cons_2 ]; by eexists.
Defined.

Lemma convert_attribute_short_row_witness :
  convert_attribute ex_car_ds 3 ex_car_map ex_car_store = Raise IndexError.
Proof.
  apply (convert_attribute_short_row ex_car_ds 3 ex_car_map ex_car_store).
  - exact ex_car_allocated.
  - exists 0, [VStr "low"; VStr "2"; VStr "unacc"].
    split; [apply list_elem_of_here|]. split; [reflexivity | cbn; lia].
Defined.

(** ** Dictionaries *)

Lemma dict_get_set {V} (d : list (value * V)) k v k' :
  dict_get (dict_set d k v) k' = if decide (k = k') then Some v else dict_get d k'.
Proof.
  induction d as [|[k0 v0] d IH]; cbn [dict_set dict_get].
  - done.
  - destruct (decide (k0 = k)) as [->|Hne]; cbn [dict_get].
    + by destruct (decide (k = k')).
    + rewrite IH. destruct (decide (k0 = k')) as [->|]; [|done].
      by rewrite decide_False.
Qed.

Lemma dict_get_None {V} (d : list (value * V)) k :
  dict_get d k = None <-> k ∉ map fst d.
Proof.
  induction d as [|[k0 v0] d IH]; cbn [dict_get map fst].
  - split; [intros _; apply not_elem_of_nil | done].
  - rewrite not_elem_of_cons. destruct (decide (k0 = k)) as [->|Hne].
    + split; [done | intros [? _]; done].
    + rewrite IH. split; [intros ?; split; [congruence | done] | tauto].
Qed.

Lemma dict_set_keys {V} (d : list (value * V)) k v :
  map fst (dict_set d k v)
  = if decide (k ∈ map fst d) then map fst d else map fst d ++ [k].
Proof.
  induction d as [|[k0 v0] d IH]; cbn [dict_set map fst].
  - rewrite decide_False; [done | apply not_elem_of_nil].
  - destruct (decide (k0 = k)) as [->|Hne]; cbn [map fst].
    + rewrite decide_True; [done | apply list_elem_of_here].
    + rewrite IH. destruct (decide (k ∈ map fst d)) as [Hin|Hnotin].
      * rewrite decide_True; [done | by apply list_elem_of_further].
      * rewrite decide_False; [done|]. rewrite not_elem_of_cons. split; congruence.
Qed.

Lemma dict_set_NoDup {V} (d : list (value * V)) k v :
  NoDup (map fst d) -> NoDup (map fst (dict_set d k v)).
Proof.
  intros Hnd. rewrite dict_set_keys. destruct (decide _); [done|].
  apply NoDup_app. split; [done|]. split; [|apply NoDup_singleton].
  intros x Hx Hx'. apply list_elem_of_singleton in Hx'. by subst.
Qed.

Lemma dict_set_sum (d : list (value * R)) k v :
  Rsum (map snd (dict_set d k v))
  = (Rsum (map snd d) - default 0 (dict_get d k) + v)%R.
Proof.
  induction d as [|[k0 v0] d IH]; cbn [dict_set dict_get map snd].
  - cbn. lra.
  - destruct (decide (k0 = k)) as [->|Hne]; cbn [map snd].
    + unfold Rsum. cbn. lra.
    + unfold Rsum in *. cbn [fold_right]. rewrite IH. lra.
Qed.

(** ** [calculate_class_distribution] *)

Lemma class_count_snoc col c prefix obs :
  class_count col c (prefix ++ [obs])
  = class_count col c prefix + (if decide (obs !! col = Some c) then 1 else 0).
Proof.
  unfold class_count. rewrite filter_app, length_app, filter_cons, filter_nil.
  by destruct (decide (obs !! col = Some c)).
Qed.

Lemma class_distribution_step_shares n col prefix probs obs :
  n <> 0 -> col < length obs -> shares n col prefix probs ->
  exists probs',
    class_distribution_step n col probs obs = Ok probs' /\
    shares n col (prefix ++ [obs]) probs'.
Proof.
  intros Hn Hlt (Hnd & Hget & Hsum).
  destruct (lookup_lt_is_Some_2 obs col Hlt) as [cv Hcv].
  assert (Hn' : INR n <> 0%R) by (by apply not_0_INR).
  assert (Hdiv : py_div 1 (INR n) = Ok (1 / INR n)%R).
  { unfold py_div. by destruct (Req_dec_T (INR n) 0). }
  unfold class_distribution_step, getitem. rewrite Hcv. cbn [bind].
  set (p := default 0%R (dict_get probs cv)).
  exists (dict_set probs cv (p + 1 / INR n)%R). split.
  { unfold p. destruct (dict_get probs cv) as [p0|]; rewrite Hdiv; cbn [bind default].
    - done.
    - by rewrite Rplus_0_l. }
  assert (Hp : p = (INR (class_count col cv prefix) / INR n)%R).
  { unfold p. rewrite Hget. destruct (decide _) as [->|]; cbn; [|done].
    unfold Rdiv. ring. }
  split; [by apply dict_set_NoDup|]. split.
  - intros c. rewrite dict_get_set, class_count_snoc, Hcv.
    destruct (decide (cv = c)) as [->|Hne].
    + destruct (decide (Some c = Some c)); [|done].
      destruct (decide (_ + 1 = 0)); [lia|].
      f_equal. rewrite Hp, Nat.add_1_r, S_INR. by field.
    + destruct (decide (Some cv = Some c)); [congruence|].
      rewrite Nat.add_0_r. apply Hget.
  - rewrite dict_set_sum, Hsum, length_app. cbn [length]. fold p.
    rewrite Nat.add_1_r, S_INR. by field.
Qed.

Lemma class_distribution_loop n col rest prefix probs :
  n <> 0 -> Forall (fun obs => col < length obs) rest ->
  shares n col prefix probs ->
  exists probs',
    for_each (class_distribution_step n col) rest probs = Ok probs' /\
    shares n col (prefix ++ rest) probs'.
Proof.
  intros Hn Hrest. revert prefix probs.
  induction Hrest as [|obs rest Hobs Hrest IH]; intros prefix probs Hs.
  - exists probs. by rewrite app_nil_r.
  - destruct (class_distribution_step_shares n col prefix probs obs)
      as (probs1 & Hstep & Hs1); [done..|].
    destruct (IH (prefix ++ [obs]) probs1 Hs1) as (probs' & Hrun & Hs').
    exists probs'. cbn [for_each]. rewrite Hstep. cbn [bind].
    split; [done|]. by rewrite <- app_assoc in Hs'.
Qed.

Lemma shares_nil n col : shares n col [] [].
Proof.
  split; [constructor|]. split; [done|]. cbn. unfold Rdiv. ring.
Qed.



(** X11: [calculate_class_distribution] of no rows is the empty dictionary
    (the division by the number of rows is never reached), and it raises
    [IndexError] when a row does not have the class column. *)
Theorem class_distribution_edge_cases class_col :
  calculate_class_distribution [] class_col = Ok [] /\
  forall data,
    Exists (fun obs => length obs <= class_col) data ->
    calculate_class_distribution data class_col = Raise IndexError.
Proof.
  split; [done|]. intros data Hex. unfold calculate_class_distribution.
  assert (Hn : length data <> 0) by (destruct data; [by inversion Hex | done]).
  generalize dependent (length data). intros n Hn.
  generalize (@nil (value * R)) as probs.
  induction Hex as [obs data Hshort|obs data Hex IH]; intros probs; cbn [for_each].
  - unfold class_distribution_step, getitem.
    by rewrite lookup_ge_None_2 by lia.
  - destruct (decide (class_col < length obs)) as [Hlt|Hge].
    + destruct (lookup_lt_is_Some_2 obs class_col Hlt) as [cv Hcv].
      unfold class_distribution_step at 1, getitem, py_div. rewrite Hcv. cbn [bind].
      destruct (Req_dec_T (INR n) 0) as [H0|_]; [by apply not_0_INR in H0|].
      destruct (dict_get probs cv); cbn [bind]; apply IH.
    + unfold class_distribution_step, getitem.
      by rewrite lookup_ge_None_2 by lia.
Qed.

Lemma ex_class_rows_have_class : Forall (fun obs => 1 < length obs) ex_class_rows.
Proof. repeat constructor. Defined.



Lemma class_distribution_edge_cases_witness :
  calculate_class_distribution ex_class_rows 2 = Raise IndexError.
Proof.
  destruct (class_distribution_edge_cases 2) as [_ H].
  apply H. apply Exists_cons_hd. cbn. lia.
Defined.

(** ** More on [distance] *)

Lemma Rsum_zero_iff l :
  Forall (fun x => 0 <= x)%R l -> Rsum l = 0%R <-> Forall (fun x => x = 0%R) l.
Proof.
  induction 1 as [|x l Hx Hl IH]; cbn.
  - split; [constructor | done].
  - pose proof (Rsum_nonneg l Hl) as Hs. unfold Rsum in *. split.
    + intros H. assert (x = 0%R) by lra. constructor; [done|]. apply IH. lra.
    + intros H. inversion H as [|? ? -> Hl0]; subst. apply IH in Hl0. lra.
Qed.

Lemma disagreement_zero_iff sch a b c :
  has_schema sch a -> has_schema sch b -> c < length sch ->
  disagreement sch a b c = 0%R <-> a !! c = b !! c.
Proof.
  intros Ha Hb Hlt. apply lookup_lt_is_Some_2 in Hlt as [k Hk].
  destruct (has_schema_lookup _ _ _ _ Ha Hk) as (x & Hx & Hkx).
  destruct (has_schema_lookup _ _ _ _ Hb Hk) as (y & Hy & Hky).
  unfold disagreement, num_at. rewrite Hk, Hx, Hy. destruct k.
  - destruct x as [x|], y as [y|]; try discriminate. split.
    + intros H. f_equal. f_equal. nra.
    + intros [= ->]. ring.
  - destruct (decide (Some x = Some y)); split; (done || lra).
Qed.



Lemma minkowski_2 (u A v B w C : R) :
  (0 <= u)%R -> (0 <= A)%R -> (0 <= v)%R -> (0 <= B)%R ->
  (0 <= w <= u + v)%R -> (0 <= C <= A + B)%R ->
  (sqrt (w ^ 2 + C ^ 2) <= sqrt (u ^ 2 + A ^ 2) + sqrt (v ^ 2 + B ^ 2))%R.
Proof.
  intros Hu HA Hv HB Hw HC.
  set (P := sqrt (u ^ 2 + A ^ 2)). set (Q := sqrt (v ^ 2 + B ^ 2)).
  assert (HP : (0 <= P)%R) by apply sqrt_pos.
  assert (HQ : (0 <= Q)%R) by apply sqrt_pos.
  assert (HP2 : (P ^ 2 = u ^ 2 + A ^ 2)%R) by (unfold P; apply pow2_sqrt; nra).
  assert (HQ2 : (Q ^ 2 = v ^ 2 + B ^ 2)%R) by (unfold Q; apply pow2_sqrt; nra).
  assert (Hcs : (u * v + A * B <= P * Q)%R).
  { assert (H2 : ((u * v + A * B) ^ 2 <= (P * Q) ^ 2)%R).
    { replace ((P * Q) ^ 2)%R with (P ^ 2 * Q ^ 2)%R by ring.
      rewrite HP2, HQ2. pose proof (pow2_ge_0 (u * B - A * v)). nra. }
    assert (0 <= u * v + A * B)%R by nra.
    assert (0 <= P * Q)%R by nra.
    nra. }
  rewrite <- (sqrt_pow2 (P + Q)) by lra.
  apply sqrt_le_1; nra.
Qed.

(** The Euclidean norm of a family that is, member by member, at most the
    sum of two others is at most the sum of their norms. *)
Lemma norm_triangle (u v w : nat -> R) cols :
  (forall c, 0 <= u c /\ 0 <= v c /\ 0 <= w c <= u c + v c)%R ->
  (sqrt (Rsum (map (fun c => w c ^ 2) cols))
   <= sqrt (Rsum (map (fun c => u c ^ 2) cols))
      + sqrt (Rsum (map (fun c => v c ^ 2) cols)))%R.
Proof.
  intros H. induction cols as [|c cols IH].
  - cbn. rewrite sqrt_0. lra.
  - cbn [map]. unfold Rsum in *. cbn [fold_right].
    set (SW := fold_right Rplus 0%R (map (fun c => w c ^ 2)%R cols)) in *.
    set (SU := fold_right Rplus 0%R (map (fun c => u c ^ 2)%R cols)) in *.
    set (SV := fold_right Rplus 0%R (map (fun c => v c ^ 2)%R cols)) in *.
    assert (Hnn : forall f : nat -> R,
              (0 <= fold_right Rplus 0 (map (fun c => f c ^ 2) cols))%R).
    { intros f. apply (Rsum_nonneg (map (fun c => f c ^ 2)%R cols)).
      apply Forall_forall. intros x Hx.
      apply list_elem_of_fmap in Hx as (c' & -> & _). apply pow2_ge_0. }
    pose proof (Hnn w) as HW. pose proof (Hnn u) as HU. pose proof (Hnn v) as HV.
    fold SW in HW. fold SU in HU. fold SV in HV.
    destruct (H c) as (Hu & Hv & Hw).
    rewrite <- (pow2_sqrt SW), <- (pow2_sqrt SU), <- (pow2_sqrt SV) by done.
    apply minkowski_2; try done; try apply sqrt_pos.
    split; [apply sqrt_pos | done].
Qed.

Lemma gap_nonneg sch a b c : (0 <= gap sch a b c)%R.
Proof.
  unfold gap. destruct (sch !! c) as [[]|]; try apply Rabs_pos.
  destruct (decide _); lra.
Qed.

Lemma gap_square sch a b c : (gap sch a b c ^ 2 = disagreement sch a b c)%R.
Proof.
  unfold gap, disagreement. destruct (sch !! c) as [[]|]; try apply pow2_abs.
  destruct (decide _); ring.
Qed.

Lemma gap_triangle sch a b c' c :
  (gap sch a c' c <= gap sch a b c + gap sch b c' c)%R.
Proof.
  unfold gap. destruct (sch !! c) as [[]|].
  - replace (num_at a c - num_at c' c)%R
      with ((num_at a c - num_at b c) + (num_at b c - num_at c' c))%R by ring.
    apply Rabs_triang.
  - destruct (decide (a !! c = c' !! c)), (decide (a !! c = b !! c)),
      (decide (b !! c = c' !! c)); try lra. congruence.
  - replace (num_at a c - num_at c' c)%R
      with ((num_at a c - num_at b c) + (num_at b c - num_at c' c))%R by ring.
    apply Rabs_triang.
Qed.

Lemma spec_distance_norm sch cols a b :
  spec_distance sch cols a b
  = sqrt (Rsum (map (fun c => gap sch a b c ^ 2)%R cols)).
Proof.
  unfold spec_distance. f_equal. f_equal. apply map_ext. intros c.
  symmetry. apply gap_square.
Qed.



(** A row that holds a string in a numeric column. *)
Lemma distance_loop_type_error sch cols a b cols' sum :
  length a = length sch -> has_schema sch b ->
  Forall (fun c => c ∈ cols /\ c < length sch) cols' ->
  Exists (fun c => sch !! c = Some Numeric /\ exists s, a !! c = Some (VStr s)) cols' ->
  for_each (distance_step (categorical_cols sch cols) a b) cols' sum
  = Raise TypeError.
Proof.
  intros Hla Hb Hall Hex. revert sum.
  induction Hall as [|c cols' [Hc Hlt] Hall IH]; intros sum; [by inversion Hex|].
  cbn [for_each].
  destruct (lookup_lt_is_Some_2 sch c Hlt) as [k Hk].
  destruct (lookup_lt_is_Some_2 a c) as [x Hx]; [lia|].
  destruct (has_schema_lookup _ _ _ _ Hb Hk) as (y & Hy & Hky).
  unfold distance_step at 1, getitem. rewrite Hx, Hy. cbn [bind].
  destruct k.
  - rewrite bool_decide_eq_false_2.
    2:{ rewrite elem_of_categorical_cols. intros [? _]. congruence. }
    destruct y as [y|]; [|discriminate].
    destruct x as [x|s]; cbn [py_sub bind]; [|done].
    apply IH. inversion Hex as [? ? [_ [s Hs]]|]; subst; [congruence | done].
  - rewrite bool_decide_eq_true_2 by (by apply elem_of_categorical_cols).
    apply IH. inversion Hex as [? ? [Hn _]|]; subst; [congruence | done].
Qed.

(** X14: a row that holds a string in an attribute column that is numeric
    in the data set makes [distance] raise [TypeError], whichever side the
    row is on; the other fields of the row can be anything. *)
Theorem distance_string_in_numeric_column self st sch a b c s :
  schema self st = Some sch ->
  valid_cols sch (attr_cols self) ->
  length a = length sch -> has_schema sch b ->
  c ∈ attr_cols self -> sch !! c = Some Numeric -> a !! c = Some (VStr s) ->
  distance self st a b = Raise TypeError /\
  distance self st b a = Raise TypeError.
Proof.
  intros Hsch Hv Hla Hb Hc Hk Ha.
  assert (H : distance self st a b = Raise TypeError).
  { unfold distance. rewrite (get_str_attr_cols_schema _ _ sch) by done.
    cbn [bind]. rewrite (distance_loop_type_error sch); [done..| |].
    - by apply valid_cols_self.
    - apply Exists_exists. exists c. eauto. }
  split; [done|]. by rewrite distance_sym.
Qed.

Lemma distance_string_in_numeric_column_witness :
  distance ex_ds ex_store [VStr "3"; VStr "red"; VStr "A"] ex_b = Raise TypeError /\
  distance ex_ds ex_store ex_b [VStr "3"; VStr "red"; VStr "A"] = Raise TypeError.
Proof.
  apply (distance_string_in_numeric_column ex_ds ex_store ex_schema
           [VStr "3"; VStr "red"; VStr "A"] ex_b 0 "3");
    [reflexivity | exact ex_valid_cols | reflexivity | reflexivity
    | apply list_elem_of_here | reflexivity | reflexivity].
Defined.

Lemma math_sqrt_0 : math_sqrt 0 = Ok 0%R.
Proof. rewrite math_sqrt_nonneg by lra. by rewrite sqrt_0. Qed.

(** X15: a data set without attribute columns has distance 0 between any
    two rows, whatever they and the data set hold; a data set without rows
    that has an attribute column has no first row to classify it by, and
    [distance] raises [IndexError]. *)
Theorem distance_without_columns_or_rows self st a b :
  (attr_cols self = [] -> distance self st a b = Ok 0%R) /\
  (data self = [] -> attr_cols self <> [] ->
     distance self st a b = Raise IndexError).
Proof.
  unfold distance, get_str_attr_cols. split.
  - intros ->. cbn. apply math_sqrt_0.
  - intros Hd Hc. destruct (attr_cols self) as [|c cols]; [done|].
    cbn [for_each]. unfold get_str_attr_cols_step at 1. by rewrite Hd.
Qed.

Lemma distance_without_columns_or_rows_witness :
  distance (mkDataSet [0] 2 [] "") ex_store ex_a ex_b = Ok 0%R /\
  distance (mkDataSet [] 2 [0; 1] "") ex_store ex_a ex_b = Raise IndexError.
Proof.
  split.
  - apply (distance_without_columns_or_rows (mkDataSet [0] 2 [] "")). reflexivity.
  - apply (distance_without_columns_or_rows (mkDataSet [] 2 [0; 1] ""));
      [reflexivity | discriminate].
Defined.

(** ** More on [normalize_z_score] *)

Lemma z_scores_scaled xs :
  spread xs <> 0%R ->
  map (z_score xs) xs = map (fun x => (x - mean xs) / spread xs)%R xs.
Proof.
  intros Hs. apply map_ext. intros x. unfold z_score.
  by destruct (Req_dec_T (spread xs) 0).
Qed.

Lemma z_scores_zero xs :
  spread xs = 0%R -> map (z_score xs) xs = map (fun _ => 0%R) xs.
Proof.
  intros Hs. apply map_ext. intros x. unfold z_score.
  by destruct (Req_dec_T (spread xs) 0).
Qed.

Lemma mean_z_scores xs : xs <> [] -> mean (map (z_score xs) xs) = 0%R.
Proof.
  intros Hne.
  assert (Hn : INR (length xs) <> 0%R).
  { intros H. apply (INR_eq _ 0) in H. by destruct xs. }
  destruct (Req_dec_T (spread xs) 0) as [H0|Hs].
  - rewrite z_scores_zero by done. unfold mean. rewrite Rsum_zeros.
    unfold Rdiv. ring.
  - rewrite z_scores_scaled by done. unfold mean at 1.
    rewrite Rsum_shift_scale, length_map. unfold mean. by field.
Qed.

Lemma sum_squares_z_scores xs :
  spread xs <> 0%R ->
  Rsum (map (fun z => z ^ 2)%R (map (z_score xs) xs)) = 1%R.
Proof.
  intros Hs. rewrite z_scores_scaled by done.
  rewrite (map_ext (fun z => z ^ 2)%R (fun z => (z - 0) ^ 2)%R)
    by (intros z; ring).
  rewrite Rsum_square_scale.
  set (ssd := Rsum (map (fun x => (x - mean xs) ^ 2)%R xs)).
  assert (Hssd : (0 <= ssd)%R) by apply Rsum_squares_nonneg.
  assert (Hs2 : (spread xs ^ 2 = ssd)%R) by (unfold spread; by rewrite pow2_sqrt).
  rewrite <- Hs2. by field.
Qed.

Lemma column_normalized self cols (st st' : store) c :
  numeric_cols self st cols -> c ∈ cols ->
  (forall l r, l ∈ data self -> st !! l = Some r ->
     exists r',
       st' !! l = Some r' /\
       length r' = length r /\
       (forall c, c ∈ cols ->
          r' !! c = Some (VNum (z_score (column self st c) (num_at r c)))) /\
       (forall c, c ∉ cols -> r' !! c = r !! c)) ->
  column self st' c = map (z_score (column self st c)) (column self st c).
Proof.
  intros Hnum Hc Hrows. unfold column at 1 3. rewrite map_map.
  apply map_ext_in. intros l Hl. apply list_elem_of_In in Hl.
  destruct (numeric_cols_row _ _ _ _ Hnum Hl) as (r & Hr & _).
  destruct (Hrows l r Hl Hr) as (r' & Hr' & _ & Hcs & _).
  rewrite Hr, Hr'. cbn [default]. unfold num_at at 1. by rewrite Hcs.
Qed.





Lemma col_sum_loop_type_error (st : store) col ls acc :
  Forall (fun l => exists r, st !! l = Some r /\ col < length r) ls ->
  Exists (fun l => exists r s, st !! l = Some r /\ r !! col = Some (VStr s)) ls ->
  for_each (col_sum_step st col) ls acc = Raise TypeError.
Proof.
  intros Hall Hex. revert acc.
  induction Hall as [|l ls (r & Hr & Hlt) Hall IH]; intros acc; [by inversion Hex|].
  destruct (lookup_lt_is_Some_2 r col Hlt) as [v Hv].
  cbn [for_each]. unfold col_sum_step at 1, deref, getitem.
  rewrite Hr. cbn [bind]. rewrite Hv. cbn [bind].
  destruct v as [x|s]; cbn [py_add bind]; [|done].
  apply IH. inversion Hex as [? ? (r' & s & Hr' & Hs)|]; subst; [|done].
  congruence.
Qed.

(** X18: [normalize_z_score] of no columns returns and changes nothing.  On
    a data set without rows it raises [ZeroDivisionError] at the first
    listed column.  When the rows have the first listed column and one of
    them holds a string there, it raises [TypeError]. *)
Theorem normalize_z_score_errors self (st : store) col cols :
  normalize_z_score self [] st = Ok st /\
  (data self = [] ->
     normalize_z_score self (col :: cols) st = Raise ZeroDivisionError) /\
  (Forall (fun l => exists r, st !! l = Some r /\ col < length r) (data self) ->
   Exists (fun l => exists r s, st !! l = Some r /\ r !! col = Some (VStr s))
     (data self) ->
   normalize_z_score self (col :: cols) st = Raise TypeError).
Proof.
  split; [done|]. unfold normalize_z_score. cbn [for_each]. split.
  - intros Hd. unfold normalize_col. rewrite Hd. cbn [for_each bind length INR].
    unfold py_div. by destruct (Req_dec_T 0 0).
  - intros Hall Hex. unfold normalize_col.
    by rewrite col_sum_loop_type_error.
Qed.

Lemma normalize_z_score_errors_witness :
  normalize_z_score (mkDataSet [] 1 [0] "") [0] ex_store2 = Raise ZeroDivisionError /\
  normalize_z_score ex_ds2 [1] ex_store2 = Raise TypeError.
Proof.
  split.
  - apply (normalize_z_score_errors (mkDataSet [] 1 [0] "") ex_store2 0 []).
    reflexivity.
  - apply (normalize_z_score_errors ex_ds2 ex_store2 1 []).
    + repeat first [ apply Forall_nil_2 | apply Forall_cons_2 ];
        eexists; (split; [reflexivity | cbn; lia]).
    + apply Exists_cons_hd. eexists _, _. split; reflexivity.
Defined.

(** ** More on [convert_to_float] *)

Section ConversionEffect.

Variable float_of_str : string -> option R.

Lemma convert_fields_float_fields cols pre suffix :
  for_each (convert_field float_of_str cols)
    (seq (length pre) (length suffix)) (pre ++ suffix)
  = (s' <- float_fields float_of_str cols (length pre) suffix ;;
     Ok (pre ++ s')).
Proof.
  revert pre. induction suffix as [|v suffix IH]; intros pre; [done|].
  cbn [length seq for_each float_fields].
  assert (Hv : (pre ++ v :: suffix) !! length pre = Some v).
  { by rewrite lookup_app_r, Nat.sub_diag by lia. }
  assert (Hnext : forall v',
            for_each (convert_field float_of_str cols)
              (seq (S (length pre)) (length suffix)) (pre ++ v' :: suffix)
            = (s' <- float_fields float_of_str cols (S (length pre)) suffix ;;
               Ok (pre ++ v' :: s'))).
  { intros v'. specialize (IH (pre ++ [v'])).
    rewrite length_app, Nat.add_1_r, <- app_assoc in IH. cbn [app] in IH.
    rewrite IH. destruct (float_fields _ _ _ suffix); cbn [bind]; [|done].
    by rewrite <- app_assoc. }
  unfold convert_field at 1. destruct (bool_decide (length pre ∉ cols)).
  - cbn [bind]. rewrite Hnext.
    by destruct (float_fields _ _ _ suffix).
  - unfold getitem, setitem. rewrite Hv. cbn [bind].
    destruct (py_float float_of_str v) as [v'|e]; cbn [bind]; [|done].
    rewrite decide_True by (rewrite length_app; cbn; lia). cbn [bind].
    replace (<[length pre := v']> (pre ++ v :: suffix)) with (pre ++ v' :: suffix).
    2:{ rewrite insert_app_r_alt, Nat.sub_diag by lia. done. }
    rewrite Hnext. by destruct (float_fields _ _ _ suffix).
Qed.

Lemma convert_line_float_fields cols (st : store) l line :
  st !! l = Some line ->
  convert_line float_of_str cols st l
  = (line' <- float_fields float_of_str cols 0 line ;; Ok (<[l := line']> st)).
Proof.
  intros Hl. unfold convert_line, deref. rewrite Hl. cbn [bind].
  pose proof (convert_fields_float_fields cols [] line) as H.
  cbn [length app] in H. rewrite H.
  by destruct (float_fields _ _ _ line).
Qed.

Lemma py_float_cases v :
  (exists x, py_float float_of_str v = Ok (VNum x)) \/
  py_float float_of_str v = Raise ValueError.
Proof.
  destruct v as [x|s]; cbn; [eauto|]. destruct (float_of_str s); eauto.
Qed.

Lemma float_fields_cases cols i r :
  (exists r', float_fields float_of_str cols i r = Ok r') \/
  float_fields float_of_str cols i r = Raise ValueError.
Proof.
  revert i. induction r as [|v r IH]; intros i; cbn [float_fields]; [eauto|].
  destruct (bool_decide (i ∉ cols)); cbn [bind].
  - destruct (IH (S i)) as [[r' ->]| ->]; cbn [bind]; eauto.
  - destruct (py_float_cases v) as [[x ->]| ->]; cbn [bind]; [|eauto].
    destruct (IH (S i)) as [[r' ->]| ->]; cbn [bind]; eauto.
Qed.

Lemma float_fields_lookup cols k r r' :
  float_fields float_of_str cols k r = Ok r' ->
  length r' = length r /\
  forall i v, r !! i = Some v ->
    (k + i ∉ cols -> r' !! i = Some v) /\
    (k + i ∈ cols ->
       exists v', py_float float_of_str v = Ok v' /\ r' !! i = Some v').
Proof.
  revert k r'. induction r as [|v r IH]; intros k r'; cbn [float_fields].
  - intros [= <-]. split; [done|]. intros i v Hv. done.
  - destruct (decide (k ∉ cols)) as [Hk|Hk].
    + rewrite bool_decide_eq_true_2 by done. cbn [bind].
      destruct (float_fields _ _ (S k) r) as [r1|] eqn:Hr; [|done].
      cbn [bind]. intros [= <-]. destruct (IH _ _ Hr) as [Hlen Hl].
      split; [cbn; by rewrite Hlen|].
      intros [|i] v0 Hv0; cbn in Hv0.
      * injection Hv0 as <-. rewrite Nat.add_0_r. split; [done|]. by intros ?.
      * rewrite Nat.add_succ_r. by apply Hl.
    + rewrite bool_decide_eq_false_2 by done.
      destruct (py_float float_of_str v) as [v'|] eqn:Hv'; [|done]. cbn [bind].
      destruct (float_fields _ _ (S k) r) as [r1|] eqn:Hr; [|done].
      cbn [bind]. intros [= <-]. destruct (IH _ _ Hr) as [Hlen Hl].
      split; [cbn; by rewrite Hlen|].
      intros [|i] v0 Hv0; cbn in Hv0.
      * injection Hv0 as <-. rewrite Nat.add_0_r. split; [by intros ?|].
        intros _. by exists v'.
      * rewrite Nat.add_succ_r. by apply Hl.
Qed.

Lemma float_fields_total cols k r :
  (forall i s, k + i ∈ cols -> r !! i = Some (VStr s) -> is_Some (float_of_str s)) ->
  exists r', float_fields float_of_str cols k r = Ok r'.
Proof.
  revert k. induction r as [|v r IH]; intros k H; cbn [float_fields]; [eauto|].
  destruct (IH (S k)) as [r1 Hr1].
  { intros i s Hi Hs. apply (H (S i)); [by rewrite Nat.add_succ_r | done]. }
  rewrite Hr1. destruct (decide (k ∉ cols)) as [Hk|Hk].
  - rewrite bool_decide_eq_true_2 by done. cbn [bind]. eauto.
  - rewrite bool_decide_eq_false_2 by done.
    destruct v as [x|s]; cbn [py_float bind]; [eauto|].
    destruct (decide (k ∈ cols)) as [Hin|Hnin]; [|by destruct Hk].
    destruct (H 0 s) as [x Hx]; [by rewrite Nat.add_0_r | done |].
    rewrite Hx. cbn [bind]. eauto.
Qed.

Lemma float_fields_value_error cols k r i s :
  k + i ∈ cols -> r !! i = Some (VStr s) -> float_of_str s = None ->
  float_fields float_of_str cols k r = Raise ValueError.
Proof.
  revert k i. induction r as [|v r IH]; intros k i Hi Hs Hnone; [done|].
  cbn [float_fields]. destruct i as [|i]; cbn in Hs.
  - injection Hs as ->. rewrite Nat.add_0_r in Hi.
    rewrite bool_decide_eq_false_2 by (intros Hn; by apply Hn).
    cbn [py_float]. by rewrite Hnone.
  - rewrite (IH (S k) i) by (rewrite ?Nat.add_succ_l, <- ?Nat.add_succ_r; done).
    destruct (bool_decide (k ∉ cols)); cbn [bind]; [done|].
    by destruct (py_float_cases v) as [[x ->]| ->].
Qed.

Lemma convert_lines_ok cols ls (st : store) :
  NoDup ls ->
  (forall l, l ∈ ls ->
     exists r r', st !! l = Some r /\ float_fields float_of_str cols 0 r = Ok r') ->
  for_each (convert_line float_of_str cols) ls st
  = Ok (update_rows (float_row float_of_str cols) ls st).
Proof.
  intros Hnd. revert st. induction Hnd as [|l ls Hl Hnd IH]; intros st H; [done|].
  destruct (H l) as (r & r' & Hr & Hr'); [apply list_elem_of_here|].
  cbn [for_each update_rows].
  assert (Hfr : float_row float_of_str cols r = r')
    by (unfold float_row; by rewrite Hr').
  rewrite (convert_line_float_fields cols st l r Hr), Hr'. cbn [bind].
  rewrite <- Hfr, (alter_lookup_insert (float_row float_of_str cols) st l r Hr).
  apply IH. intros l' Hl'.
  destruct (H l') as (r1 & r1' & Hr1 & Hr1'); [by apply list_elem_of_further|].
  exists r1, r1'. split; [|done]. rewrite lookup_alter_ne; [done|]. by intros ->.
Qed.

Lemma convert_lines_value_error cols ls (st : store) :
  NoDup ls ->
  (forall l, l ∈ ls -> is_Some (st !! l)) ->
  (exists l r, l ∈ ls /\ st !! l = Some r /\
     float_fields float_of_str cols 0 r = Raise ValueError) ->
  for_each (convert_line float_of_str cols) ls st = Raise ValueError.
Proof.
  intros Hnd. revert st.
  induction Hnd as [|l0 ls Hl0 Hnd IH]; intros st Halloc (l & r & Hl & Hr & Hbad).
  - by apply elem_of_nil in Hl.
  - destruct (Halloc l0 (list_elem_of_here _ _)) as [r0 Hr0].
    cbn [for_each]. rewrite (convert_line_float_fields cols st l0 r0 Hr0).
    destruct (float_fields_cases cols 0 r0) as [[r0' Hok]|Herr];
      [|by rewrite Herr].
    rewrite Hok. cbn [bind].
    assert (Hne : l <> l0) by (intros ->; congruence).
    apply elem_of_cons in Hl as [|Hl]; [done|].
    apply IH.
    + intros l' Hl'. destruct (decide (l' = l0)) as [->|Hne'].
      * rewrite lookup_insert_eq. by eexists.
      * rewrite lookup_insert_ne by done. apply Halloc. by apply list_elem_of_further.
    + exists l, r. split; [done|]. split; [|done]. by rewrite lookup_insert_ne.
Qed.

(** X19: on distinct row objects in which every string in a listed column
    is one that [float] accepts, [convert_to_float(cols)] returns.  Each
    field in a listed column is replaced by its [float]: a number stays, a
    string becomes the number it spells.  Fields in other columns, the
    length of the rows and the rows outside the data set stay; a listed
    column that a row does not have is passed over. *)
Theorem convert_to_float_converts self cols (st : store) :
  NoDup (data self) ->
  (forall l, l ∈ data self ->
     exists r, st !! l = Some r /\
       forall i s, i ∈ cols -> r !! i = Some (VStr s) ->
         is_Some (float_of_str s)) ->
  exists st',
    convert_to_float float_of_str self cols st = Ok st' /\
    (forall l, l ∉ data self -> st' !! l = st !! l) /\
    (forall l r, l ∈ data self -> st !! l = Some r ->
       exists r',
         st' !! l = Some r' /\
         length r' = length r /\
         forall i v, r !! i = Some v ->
           (i ∉ cols -> r' !! i = Some v) /\
           (i ∈ cols ->
              exists v', py_float float_of_str v = Ok v' /\ r' !! i = Some v')).
Proof.
  intros Hnd Hrows.
  assert (Hok : forall l, l ∈ data self ->
            exists r r', st !! l = Some r /\
              float_fields float_of_str cols 0 r = Ok r').
  { intros l Hl. destruct (Hrows l Hl) as (r & Hr & Hconv).
    destruct (float_fields_total cols 0 r) as [r' Hr']; [|by eauto].
    intros i s Hi Hs. by apply (Hconv i s). }
  exists (update_rows (float_row float_of_str cols) (data self) st).
  split; [by apply convert_lines_ok|]. split.
  - intros l Hl. by rewrite lookup_update_rows, decide_False by done.
  - intros l r Hl Hr. destruct (Hok l Hl) as (r0 & r' & Hr0 & Hr').
    assert (r0 = r) as -> by congruence.
    exists r'. rewrite lookup_update_rows, decide_True, Hr by done.
    cbn. unfold float_row. rewrite Hr'. split; [done|].
    apply float_fields_lookup in Hr' as [Hlen Hl']. done.
Qed.

(** X20: [convert_to_float(cols)] raises [ValueError] when a row of the data
    set holds, in a listed column, a string that [float] does not accept. *)
Theorem convert_to_float_value_error self cols (st : store) l r i s :
  NoDup (data self) ->
  (forall l, l ∈ data self -> is_Some (st !! l)) ->
  l ∈ data self -> st !! l = Some r ->
  i ∈ cols -> r !! i = Some (VStr s) -> float_of_str s = None ->
  convert_to_float float_of_str self cols st = Raise ValueError.
Proof.
  intros Hnd Halloc Hl Hr Hi Hs Hnone.
  apply convert_lines_value_error; [done..|].
  exists l, r. split; [done|]. split; [done|].
  by apply (float_fields_value_error cols 0 r i s).
Qed.

End ConversionEffect.

Lemma ex_ds3_convertible :
  forall l, l ∈ data ex_ds3 ->
    exists r, ex_store3 !! l = Some r /\
      forall i s, i ∈ [0] -> r !! i = Some (VStr s) ->
        is_Some (float_of_digits s).
Proof.
  apply Forall_forall.
  repeat first [ apply Forall_nil_2 | apply Forall_cons_2 ];
    (eexists; split; [reflexivity|]);
    intros i s Hi Hs; apply list_elem_of_singleton in Hi; subst i;
    injection Hs as <-; by eexists.
Defined.

Lemma ex_ds3_rows_distinct : NoDup (data ex_ds3).
Proof. apply (bool_decide_unpack _). vm_compute. exact I. Defined.

Lemma convert_to_float_converts_witness :
  exists st',
    convert_to_float float_of_digits ex_ds3 [0] ex_store3 = Ok st' /\
    (forall l, l ∉ data ex_ds3 -> st' !! l = ex_store3 !! l) /\
    (forall l r, l ∈ data ex_ds3 -> ex_store3 !! l = Some r ->
       exists r',
         st' !! l = Some r' /\
         length r' = length r /\
         forall i v, r !! i = Some v ->
           (i ∉ [0] -> r' !! i = Some v) /\
           (i ∈ [0] ->
              exists v', py_float float_of_digits v = Ok v' /\ r' !! i = Some v')).
Proof.
  exact (convert_to_float_converts float_of_digits ex_ds3 [0] ex_store3
           ex_ds3_rows_distinct ex_ds3_convertible).
Defined.

Lemma ex_ds3_allocated : forall l, l ∈ data ex_ds3 -> is_Some (ex_store3 !! l).
Proof.
  apply Forall_forall.
  repeat first [ apply Forall_nil_2 | apply Forall_cons_2 ]; by eexists.
Defined.

Lemma convert_to_float_value_error_witness :
  convert_to_float float_of_digits ex_ds3 [1] ex_store3 = Raise ValueError.
Proof.
  apply (convert_to_float_value_error float_of_digits ex_ds3 [1] ex_store3
           0 [VStr "1"; VStr "x"] 1 "x");
    [exact ex_ds3_rows_distinct | exact ex_ds3_allocated
    | apply list_elem_of_here | reflexivity | apply list_elem_of_here
    | reflexivity | reflexivity].
Defined.

(** ** [convert_to_float], then [normalize_z_score] *)


Lemma ex_ds3_has_column :
  forall l, l ∈ data ex_ds3 ->
    exists r, ex_store3 !! l = Some r /\ forall c, c ∈ [0] -> c < length r.
Proof.
  apply Forall_forall.
  repeat first [ apply Forall_nil_2 | apply Forall_cons_2 ];
    (eexists; split; [reflexivity|]);
    intros c Hc; apply list_elem_of_singleton in Hc; subst c; cbn; lia.
Defined.


(** ** [sample] of every row, and of none *)

Lemma arrangement_all n js : arrangement n n js -> js ≡ₚ seq 0 n.
Proof.
  intros (Hlen & Hnd & Hlt). apply submseteq_length_Permutation.
  - apply NoDup_submseteq; [done|]. intros j Hj. apply elem_of_seq.
    rewrite Forall_forall in Hlt. specialize (Hlt j Hj). lia.
  - rewrite length_seq. lia.
Qed.

(** X22: [sample(k)] with [k] the number of rows returns all the rows, in
    the order of the draws: a permutation of the rows.  [sample(0)] returns
    a data set without rows and uses no draw. *)
Theorem sample_all_or_none self draws :
  (valid_draws (length (data self)) (length (data self)) draws ->
   exists self',
     sample self (Z.of_nat (length (data self))) draws = Ok self' /\
     data self' ≡ₚ data self) /\
  sample self 0 draws
  = Ok (mkDataSet [] (class_col self) (attr_cols self) (filename self)).
Proof.
  split.
  - intros Hv. set (n := length (data self)) in *.
    assert (Hk : (0 <= Z.of_nat n <= Z.of_nat n)%Z) by lia.
    assert (Hv' : valid_draws n (Z.to_nat (Z.of_nat n)) draws)
      by (by rewrite Nat2Z.id).
    destruct (selection_arrangement n (Z.of_nat n) draws Hk Hv')
      as (js & Hloop & _ & Harr).
    rewrite Nat2Z.id in Harr.
    set (f := fun j => default 0 (data self !! j)).
    exists (mkDataSet (map f js) (class_col self) (attr_cols self) (filename self)).
    split.
    + unfold sample. rewrite random_sample_valid by (fold n; (lia || apply Hv')).
      fold n. rewrite (list_as_map_seq (data self)) at 1. fold n f.
      by rewrite sample_loop_map, Hloop.
    + cbn [data]. transitivity (map f (seq 0 n)).
      * change (map f ?l) with (f <$> l). f_equiv. by apply arrangement_all.
      * unfold f, n. by rewrite <- list_as_map_seq.
  - unfold sample, random_sample.
    destruct (Z.leb_spec 0 0); [|lia].
    destruct (Z.leb_spec 0 (Z.of_nat (length (data self)))); [|lia]. done.
Qed.

Lemma ex_all_draws : valid_draws 3 3 [2; 0; 0].
Proof.
  split; [reflexivity|].
  intros t j Ht. destruct t as [|[|[|t]]]; cbn in Ht; [| | |discriminate];
    injection Ht as <-; cbn; lia.
Defined.

Lemma sample_all_or_none_witness :
  exists self',
    sample (ds_of_size 3) (Z.of_nat (length (data (ds_of_size 3)))) [2; 0; 0]
    = Ok self' /\
    data self' ≡ₚ data (ds_of_size 3).
Proof.
  destruct (sample_all_or_none (ds_of_size 3) [2; 0; 0]) as [H _].
  exact (H ex_all_draws).
Defined.

(** ** The loaders *)

Lemma Rsum_perm xs ys : xs ≡ₚ ys -> Rsum xs = Rsum ys.
Proof.
  unfold Rsum.
  induction 1 as [|x xs ys _ IH|x y xs|xs ys zs _ IH1 _ IH2]; cbn.
  - done.
  - by rewrite IH.
  - lra.
  - by rewrite IH1.
Qed.

Lemma mean_column_perm self self' st c :
  data self' ≡ₚ data self -> mean (column self' st c) = mean (column self st c).
Proof.
  intros Hp. unfold mean, column.
  rewrite (Rsum_perm _ (map (fun l => num_at (default [] (st !! l)) c) (data self)))
    by (by apply fmap_Permutation).
  by rewrite !length_map, (Permutation_length Hp).
Qed.

Lemma get_str_attr_cols_kinds self (st : store) (strs : list nat) l0 r0 :
  head (data self) = Some l0 -> st !! l0 = Some r0 ->
  (forall c, c ∈ attr_cols self ->
     (c ∈ strs -> exists s, r0 !! c = Some (VStr s)) /\
     (c ∉ strs -> exists x, r0 !! c = Some (VNum x))) ->
  get_str_attr_cols self st = Ok (filter (fun c => c ∈ strs) (attr_cols self)).
Proof.
  intros Hhd Hr0 Hk.
  assert (Hsch : schema self st = Some (map kind_of r0)).
  { unfold schema, first_row. destruct (data self); [done|].
    cbn in Hhd. injection Hhd as ->. by rewrite Hr0. }
  rewrite (get_str_attr_cols_schema self st _ Hsch).
  - f_equal. unfold categorical_cols. revert Hk.
    generalize (attr_cols self) as cols.
    induction cols as [|c cols IH]; intros Hk; [done|].
    rewrite !filter_cons, IH
      by (intros c' Hc'; apply Hk; by apply list_elem_of_further).
    destruct (Hk c) as [Hs Hn]; [apply list_elem_of_here|].
    rewrite list_lookup_fmap.
    destruct (decide (c ∈ strs)) as [Hin|Hin].
    + destruct (Hs Hin) as [s Hc]. rewrite Hc. cbn. by rewrite decide_True.
    + destruct (Hn Hin) as [x Hc]. rewrite Hc. cbn. by rewrite decide_False.
  - apply Forall_forall. intros c Hc. rewrite length_map.
    destruct (Hk c Hc) as [Hs Hn].
    destruct (decide (c ∈ strs)) as [Hin|Hin].
    + destruct (Hs Hin) as [s Hl]. by apply lookup_lt_Some in Hl.
    + destruct (Hn Hin) as [x Hl]. by apply lookup_lt_Some in Hl.
Qed.

Section LoaderEffect.

Variable float_of_str : string -> option R.

Lemma convert_normalize_ok self cols cols' (st : store) :
  data self <> [] -> NoDup (data self) -> cols' ⊆ cols ->
  (forall l, l ∈ data self ->
     exists r, st !! l = Some r /\
       (forall c, c ∈ cols' -> c < length r) /\
       (forall i s, i ∈ cols -> r !! i = Some (VStr s) ->
          is_Some (float_of_str s))) ->
  exists st1 st2,
    convert_to_float float_of_str self cols st = Ok st1 /\
    normalize_z_score self cols' st1 = Ok st2 /\
    (forall c, c ∈ cols' -> mean (column self st2 c) = 0%R) /\
    (forall l, l ∉ data self -> st2 !! l = st !! l) /\
    (forall l r, l ∈ data self -> st !! l = Some r ->
       exists r2,
         st2 !! l = Some r2 /\ length r2 = length r /\
         (forall c, c ∈ cols' -> exists x, r2 !! c = Some (VNum x)) /\
         (forall i, i ∉ cols -> r2 !! i = r !! i) /\
         (forall i v, i ∈ cols -> i ∉ cols' -> r !! i = Some v ->
            exists v', py_float float_of_str v = Ok v' /\ r2 !! i = Some v')).
Proof.
  intros Hne Hnd Hsub Hrows.
  assert (Hok : forall l, l ∈ data self ->
            exists r r', st !! l = Some r /\
              float_fields float_of_str cols 0 r = Ok r').
  { intros l Hl. destruct (Hrows l Hl) as (r & Hr & _ & Hconv).
    destruct (float_fields_total float_of_str cols 0 r) as [r' Hr']; [|by eauto].
    intros i s Hi Hs. by apply (Hconv i s). }
  set (st1 := update_rows (float_row float_of_str cols) (data self) st).
  assert (Hconv : convert_to_float float_of_str self cols st = Ok st1)
    by (by apply convert_lines_ok).
  assert (Hrow1 : forall l r, l ∈ data self -> st !! l = Some r ->
            exists r1, st1 !! l = Some r1 /\ length r1 = length r /\
              forall i v, r !! i = Some v ->
                (i ∉ cols -> r1 !! i = Some v) /\
                (i ∈ cols -> exists v',
                   py_float float_of_str v = Ok v' /\ r1 !! i = Some v')).
  { intros l r Hl Hr. destruct (Hok l Hl) as (r0 & r' & Hr0 & Hr').
    assert (r0 = r) as -> by congruence.
    exists r'. unfold st1. rewrite lookup_update_rows, decide_True, Hr by done.
    cbn. unfold float_row. rewrite Hr'. split; [done|].
    by apply float_fields_lookup in Hr' as [Hlen Hl']. }
  assert (Hnum : numeric_cols self st1 cols').
  { apply numeric_cols_intro. intros l Hl.
    destruct (Hrows l Hl) as (r & Hr & Hlen & Hfl).
    destruct (Hrow1 l r Hl Hr) as (r1 & Hr1 & Hlen1 & Hf).
    exists r1. split; [done|]. intros c Hc.
    destruct (lookup_lt_is_Some_2 r c (Hlen c Hc)) as [v Hv].
    destruct (Hf c v Hv) as [_ Hin].
    destruct (Hin (Hsub c Hc)) as (v' & Hpy & Hv').
    destruct v as [x|s]; cbn in Hpy.
    - injection Hpy as <-. eauto.
    - destruct (float_of_str s); [|done]. injection Hpy as <-. eauto. }
  destruct (normalize_z_score_ok self cols' st1 Hne Hnd Hnum)
    as (st2 & Hrun & Hout & Hin).
  exists st1, st2. split; [done|]. split; [done|]. split; [|split].
  - intros c Hc.
    rewrite (column_normalized self cols' st1 st2 c Hnum Hc Hin).
    apply mean_z_scores. unfold column. by destruct (data self).
  - intros l Hl. rewrite Hout by done. unfold st1.
    by rewrite lookup_update_rows, decide_False by done.
  - intros l r Hl Hr. destruct (Hrow1 l r Hl Hr) as (r1 & Hr1 & Hlen1 & Hf).
    destruct (Hin l r1 Hl Hr1) as (r2 & Hr2 & Hlen2 & Hz & Hkeep).
    exists r2. split; [done|]. split; [congruence|]. split; [|split].
    + intros c Hc. rewrite (Hz c Hc). eauto.
    + intros i Hi. rewrite Hkeep by (intros Hi'; by apply Hi, Hsub).
      destruct (r !! i) as [v|] eqn:Hv.
      * by apply (Hf i v Hv).
      * apply lookup_ge_None. apply lookup_ge_None in Hv. lia.
    + intros i v Hi Hi' Hv. destruct (Hf i v Hv) as [_ Hc].
      destruct (Hc Hi) as (v' & Hpy & Hv'). exists v'. split; [done|].
      by rewrite Hkeep.
Qed.

End LoaderEffect.

Lemma floats_at_sound float_of_str cols r :
  floats_at float_of_str cols r = true ->
  forall i s, i ∈ cols -> r !! i = Some (VStr s) -> is_Some (float_of_str s).
Proof.
  unfold floats_at. rewrite forallb_forall. intros H i s Hi Hs.
  apply list_elem_of_In in Hi. specialize (H i Hi). rewrite Hs in H.
  by destruct (float_of_str s).
Qed.

Lemma rows_readable_sound float_of_str cols width (st : store) ls :
  rows_readable float_of_str cols width st ls = true ->
  forall l, l ∈ ls ->
    exists r, st !! l = Some r /\ width <= length r /\
      forall i s, i ∈ cols -> r !! i = Some (VStr s) -> is_Some (float_of_str s).
Proof.
  unfold rows_readable. rewrite forallb_forall. intros H l Hl.
  apply list_elem_of_In in Hl. specialize (H l Hl).
  destruct (st !! l) as [r|]; [|done]. apply andb_true_iff in H as [Hw Hf].
  exists r. split; [done|]. split; [by apply Nat.leb_le|].
  by apply floats_at_sound.
Qed.

Lemma draws_below_sound n i draws :
  draws_below (n - i) draws = true -> draws_from n i draws.
Proof.
  revert i. induction draws as [|j draws IH]; intros i H t j' Ht; [done|].
  cbn in H. apply andb_true_iff in H as [Hj Hd]. apply Nat.ltb_lt in Hj.
  destruct t as [|t]; cbn in Ht.
  - injection Ht as <-. lia.
  - replace (n - i - 1) with (n - S i) in Hd by lia.
    specialize (IH (S i) Hd t j' Ht). lia.
Qed.


Lemma ex_abalone_rows :
  forall l, l ∈ ex_abalone_lines ->
    exists r, ex_abalone_store !! l = Some r /\ 9 <= length r /\
      (exists s, r !! 0 = Some (VStr s)) /\
      (forall i s, i ∈ seq 1 8 -> r !! i = Some (VStr s) ->
         is_Some (float_of_digits s)).
Proof.
  apply Forall_forall.
  repeat first [ apply Forall_nil_2 | apply Forall_cons_2 ];
    (eexists; split; [reflexivity|]);
    (split; [cbn; lia|]);
    (split; [eexists; reflexivity|]);
    apply floats_at_sound; vm_compute; reflexivity.
Defined.

Lemma ex_draws_of_3 : valid_draws 3 (3 - 1) [1; 0].
Proof.
  split; [reflexivity|]. apply (draws_below_sound 3 0). reflexivity.
Defined.


Lemma slice_from_nonneg {A} (l : list A) c :
  (0 <= c)%Z -> slice_from l c = drop (Z.to_nat c) l.
Proof.
  intros H. unfold slice_from. rewrite slice_bound_nonneg by done.
  apply drop_min.
Qed.

Lemma shuffle_loop_length {A} (x y : list A) i draws :
  shuffle_loop x i draws = Ok y -> length y = length x.
Proof.
  revert x draws. induction i as [|i IH]; intros x draws.
  - destruct draws; by intros [= <-].
  - destruct draws as [|j draws]; [by intros [= <-]|].
    cbn [shuffle_loop]. destruct (getitem x j) as [xj|]; [|done].
    destruct (getitem x (S i)) as [xi|]; [|done]. cbn [bind].
    intros H. apply IH in H. by rewrite !length_insert in H.
Qed.




Lemma ex_fire_rows :
  forall l, l ∈ drop 1 ex_fire_lines ->
    exists r, ex_fire_store !! l = Some r /\ 13 <= length r /\
      forall i s, i ∈ [0; 1; 4; 5; 6; 7; 8; 9; 10; 11; 12] ->
        r !! i = Some (VStr s) -> is_Some (float_of_digits s).
Proof.
  apply (rows_readable_sound float_of_digits _ 13). vm_compute. reflexivity.
Defined.

Lemma ex_fire_categories :
  forall l r, l ∈ drop 1 ex_fire_lines -> ex_fire_store !! l = Some r ->
    exists s2 s3, r !! 2 = Some (VStr s2) /\ r !! 3 = Some (VStr s3).
Proof.
  assert (H : forallb (fun l => match ex_fire_store !! l with
                                | Some r =>
                                    match r !! 2, r !! 3 with
                                    | Some (VStr _), Some (VStr _) => true
                                    | _, _ => false
                                    end
                                | None => true
                                end) (drop 1 ex_fire_lines) = true)
    by (vm_compute; reflexivity).
  rewrite forallb_forall in H. intros l r Hl Hr.
  apply list_elem_of_In in Hl. specialize (H l Hl). rewrite Hr in H.
  clear Hl Hr. destruct (r !! 2) as [[|s2]|]; [done| |done].
  destruct (r !! 3) as [[|s3]|]; [done| |done]. by exists s2, s3.
Defined.

Lemma ex_fire_draws :
  valid_draws (length ex_fire_lines - 1) (length ex_fire_lines - 1 - 1)
    (replicate 249 0) /\
  valid_draws (length ex_fire_lines - 1) 250 (replicate 250 0).
Proof.
  split; (split; [reflexivity|]);
    apply (draws_below_sound _ 0); vm_compute; reflexivity.
Defined.


(** ** [normalize_z_score] on a column that holds a string *)

Lemma column_numbers_or_string (st : store) c ls :
  (forall l, l ∈ ls -> exists r, st !! l = Some r /\ c < length r) ->
  Forall (fun l => exists r, st !! l = Some r /\
            Forall (fun c => exists x, r !! c = Some (VNum x)) [c]) ls \/
  Exists (fun l => exists r s, st !! l = Some r /\ r !! c = Some (VStr s)) ls.
Proof.
  induction ls as [|l ls IH]; intros H; [by left|].
  destruct (H l) as (r & Hr & Hlt); [apply list_elem_of_here|].
  destruct (lookup_lt_is_Some_2 r c Hlt) as [[x|s] Hv].
  - destruct IH as [IH|IH].
    + intros l' Hl'. apply H. by apply list_elem_of_further.
    + left. apply Forall_cons_2; [|done]. exists r. split; [done|].
      apply Forall_cons_2; [by exists x | apply Forall_nil_2].
    + right. by apply Exists_cons_tl.
  - right. apply Exists_cons_hd. by exists r, s.
Qed.

Lemma normalize_z_score_type_error self cols (st : store) l r c s :
  data self <> [] -> NoDup (data self) ->
  (forall l, l ∈ data self ->
     exists r, st !! l = Some r /\ forall c, c ∈ cols -> c < length r) ->
  l ∈ data self -> c ∈ cols -> st !! l = Some r -> r !! c = Some (VStr s) ->
  normalize_z_score self cols st = Raise TypeError.
Proof.
  intros Hne Hnd. revert st r.
  induction cols as [|c1 cols IH]; intros st r Hrows Hl Hc Hr Hs;
    [by apply elem_of_nil in Hc|].
  unfold normalize_z_score. cbn [for_each].
  destruct (column_numbers_or_string st c1 (data self)) as [Hnum|Hstr].
  { intros l' Hl'. destruct (Hrows l' Hl') as (r' & Hr' & Hlt).
    exists r'. split; [done|]. apply Hlt, list_elem_of_here. }
  - destruct (normalize_z_score_ok self [c1] st Hne Hnd Hnum)
      as (st' & Hrun & _ & Hin).
    unfold normalize_z_score in Hrun. cbn [for_each] in Hrun.
    destruct (normalize_col self st c1) as [st1|e]; [|done].
    cbn [bind for_each] in Hrun. injection Hrun as ->. cbn [bind].
    destruct (Hin l r Hl Hr) as (r' & Hr' & Hlen & _ & Hkeep).
    assert (Hne1 : c <> c1).
    { intros ->. destruct (numeric_cols_row _ _ _ _ Hnum Hl) as (r0 & Hr0 & Hx).
      destruct (Hx c1) as [x Hx1]; [apply list_elem_of_here|]. congruence. }
    assert (Hrows' : forall l, l ∈ data self ->
              exists r, st' !! l = Some r /\ forall c, c ∈ cols -> c < length r).
    { intros l' Hl'. destruct (Hrows l' Hl') as (r1 & Hr1 & Hlt).
      destruct (Hin l' r1 Hl' Hr1) as (r1' & Hr1' & Hlen1 & _).
      exists r1'. split; [done|]. intros c' Hc'. rewrite Hlen1.
      by apply Hlt, list_elem_of_further. }
    assert (Hc' : c ∈ cols) by (by apply elem_of_cons in Hc as [?|?]).
    assert (Hs' : r' !! c = Some (VStr s)).
    { rewrite Hkeep; [done|]. by intros ?%list_elem_of_singleton. }
    exact (IH st' r' Hrows' Hl Hc' Hr' Hs').
  - unfold normalize_col. rewrite col_sum_loop_type_error; [done| |done].
    apply Forall_forall. intros l' Hl'.
    destruct (Hrows l' Hl') as (r' & Hr' & Hlt).
    exists r'. split; [done|]. apply Hlt, list_elem_of_here.
Qed.


Lemma numeric_cols_or_string self cols (st : store) :
  (forall l, l ∈ data self ->
     exists r, st !! l = Some r /\ forall c, c ∈ cols -> c < length r) ->
  numeric_cols self st cols \/
  exists l r c s,
    l ∈ data self /\ c ∈ cols /\ st !! l = Some r /\ r !! c = Some (VStr s).
Proof.
  induction cols as [|c1 cols IH]; intros Hrows.
  - left. apply numeric_cols_intro. intros l Hl.
    destruct (Hrows l Hl) as (r & Hr & _). exists r. split; [done|].
    intros c Hc. by apply elem_of_nil in Hc.
  - destruct IH as [Hnum|(l & r & c & s & Hl & Hc & Hr & Hs)].
    { intros l Hl. destruct (Hrows l Hl) as (r & Hr & Hlt).
      exists r. split; [done|]. intros c Hc. by apply Hlt, list_elem_of_further. }
    2:{ right. exists l, r, c, s. split; [done|].
        split; [by apply list_elem_of_further | done]. }
    destruct (column_numbers_or_string st c1 (data self)) as [Hnum1|Hstr].
    { intros l Hl. destruct (Hrows l Hl) as (r & Hr & Hlt).
      exists r. split; [done|]. apply Hlt, list_elem_of_here. }
    + left. apply numeric_cols_intro. intros l Hl.
      destruct (numeric_cols_row self st cols l Hnum Hl) as (r & Hr & Hx).
      destruct (numeric_cols_row self st [c1] l Hnum1 Hl) as (r1 & Hr1 & Hx1).
      assert (r1 = r) as -> by congruence.
      exists r. split; [done|]. intros c Hc.
      apply elem_of_cons in Hc as [->|Hc]; [|by apply Hx].
      apply Hx1, list_elem_of_here.
    + right. apply Exists_exists in Hstr as (l & Hl & r & s & Hr & Hs).
      exists l, r, c1, s. split; [done|]. split; [apply list_elem_of_here | done].
Qed.



(** ** [get_car_data] *)

Lemma dict_get_Some_in {V} (d : list (value * V)) k v :
  dict_get d k = Some v -> v ∈ d.*2.
Proof.
  induction d as [|[k' v'] d IH]; cbn; [done|].
  destruct (decide (k' = k)).
  - intros [= <-]. apply list_elem_of_here.
  - intros H. by apply list_elem_of_further, IH.
Qed.

Lemma car_value_maps_numbers c m v v' :
  car_value_maps !! c = Some m -> dict_get m v = Some v' ->
  exists x, v' = VNum x.
Proof.
  intros Hm Hv. apply dict_get_Some_in in Hv.
  assert (Hall : Forall (fun m : list (value * value) =>
                   Forall (fun v => exists x, v = VNum x) (m.*2)) car_value_maps).
  { repeat first [ apply Forall_nil_2 | apply Forall_cons_2 ]; by eexists. }
  rewrite Forall_forall in Hall. apply list_elem_of_lookup_2 in Hm.
  specialize (Hall m Hm). rewrite Forall_forall in Hall. by apply Hall.
Qed.

Lemma converted_upto_start ls (st : store) : converted_upto ls 0 st st.
Proof.
  split; [done|]. intros l r _ Hr. exists r. split; [done|]. split; [done|].
  split; [intros c Hc; lia | done].
Qed.

Lemma convert_attribute_next self k m (st0 st : store) :
  NoDup (data self) ->
  (forall l, l ∈ data self ->
     exists r v x, st0 !! l = Some r /\ r !! k = Some v /\
                   dict_get m v = Some (VNum x)) ->
  converted_upto (data self) k st0 st ->
  exists st',
    convert_attribute self k m st = Ok st' /\
    converted_upto (data self) (S k) st0 st'.
Proof.
  intros Hnd Hkeys [Hout Hin].
  exists (update_rows (convert_row k m) (data self) st). split.
  - apply convert_attribute_loop; [done|]. intros l Hl.
    destruct (Hkeys l Hl) as (r & v & x & Hr & Hv & _).
    destruct (Hin l r Hl Hr) as (r' & Hr' & Hlen & _ & Hkeep).
    exists r'. split; [done|]. rewrite Hlen. by apply lookup_lt_Some in Hv.
  - split.
    + intros l Hl. by rewrite lookup_update_rows, decide_False, Hout by done.
    + intros l r Hl Hr. destruct (Hkeys l Hl) as (r0 & v & x & Hr0 & Hv & Hd).
      assert (r0 = r) as -> by congruence.
      destruct (Hin l r Hl Hr) as (r' & Hr' & Hlen & Hnum & Hkeep).
      assert (Hv' : r' !! k = Some v) by (by rewrite Hkeep).
      exists (<[k := VNum x]> r').
      rewrite lookup_update_rows, decide_True, Hr' by done. cbn.
      unfold convert_row. rewrite Hv', Hd.
      split; [done|]. split; [by rewrite length_insert|]. split.
      * intros c Hc. destruct (decide (c = k)) as [->|Hne].
        -- exists x. apply list_lookup_insert_eq. by apply lookup_lt_Some in Hv'.
        -- rewrite list_lookup_insert_ne by done. apply Hnum. lia.
      * intros c Hc. rewrite list_lookup_insert_ne by lia. apply Hkeep. lia.
Qed.


Lemma ex_car_file_rows :
  forall l, l ∈ [0; 1; 2] ->
    exists r, ex_car_file !! l = Some r /\
      forall c m, car_value_maps !! c = Some m ->
        exists v, r !! c = Some v /\ is_Some (dict_get m v).
Proof.
  apply Forall_forall.
  repeat first [ apply Forall_nil_2 | apply Forall_cons_2 ];
    (eexists; split; [reflexivity|]);
    intros c m Hm;
    do 6 (destruct c as [|c];
          [injection Hm as <-; eexists; split; [reflexivity|];
           eexists; vm_compute; reflexivity|]);
    discriminate.
Defined.


Lemma convert_row_lookup_ne col value_map r c :
  c <> col -> convert_row col value_map r !! c = r !! c.
Proof.
  intros Hne. unfold convert_row. destruct (r !! col) as [v|]; [|done].
  destruct (dict_get value_map v); [|done].
  by rewrite list_lookup_insert_ne.
Qed.

Lemma convert_attribute_keeps_string self k m w (st : store) l c s :
  NoDup (data self) -> k < w ->
  (forall l, l ∈ data self -> exists r, st !! l = Some r /\ w <= length r) ->
  l ∈ data self ->
  (exists r, st !! l = Some r /\ r !! c = Some (VStr s)) ->
  (k = c -> dict_get m (VStr s) = None) ->
  exists st',
    convert_attribute self k m st = Ok st' /\
    (forall l, l ∈ data self -> exists r, st' !! l = Some r /\ w <= length r) /\
    (exists r, st' !! l = Some r /\ r !! c = Some (VStr s)).
Proof.
  intros Hnd Hk Hrows Hl (r & Hr & Hs) Hnone.
  exists (update_rows (convert_row k m) (data self) st). split; [|split].
  - apply convert_attribute_loop; [done|]. intros l' Hl'.
    destruct (Hrows l' Hl') as (r' & Hr' & Hw). exists r'. split; [done | lia].
  - intros l' Hl'. destruct (Hrows l' Hl') as (r' & Hr' & Hw).
    exists (convert_row k m r').
    rewrite lookup_update_rows, decide_True, Hr' by done.
    split; [done|]. by rewrite length_convert_row.
  - exists (convert_row k m r).
    rewrite lookup_update_rows, decide_True, Hr by done. split; [done|].
    destruct (decide (k = c)) as [->|Hne].
    + unfold convert_row. by rewrite Hs, Hnone.
    + by rewrite convert_row_lookup_ne.
Qed.



(** ** [get_segmentation_data] and [get_machine_data] *)


Lemma ex_segmentation_rows :
  forall l, l ∈ drop 5 ex_segmentation_lines ->
    exists r, ex_segmentation_file !! l = Some r /\ 20 <= length r /\
      forall i s,
        i ∈ [1; 2; 3; 4; 5; 6; 8; 10; 11; 12; 13; 14; 15; 16; 17; 18; 19] ->
        r !! i = Some (VStr s) -> is_Some (float_of_digits s).
Proof.
  apply (rows_readable_sound float_of_digits _ 20). vm_compute. reflexivity.
Defined.

Lemma ex_segmentation_draws :
  valid_draws (length ex_segmentation_lines - 5)
    (length ex_segmentation_lines - 5 - 1) [1; 0].
Proof.
  split; [reflexivity|]. apply (draws_below_sound _ 0). reflexivity.
Defined.



Lemma ex_machine_rows :
  forall l, l ∈ ex_machine_lines ->
    exists r, ex_machine_file !! l = Some r /\ 9 <= length r /\
      (exists s0 s1, r !! 0 = Some (VStr s0) /\ r !! 1 = Some (VStr s1)) /\
      (forall i s, i ∈ seq 2 7 -> r !! i = Some (VStr s) ->
         is_Some (float_of_digits s)).
Proof.
  apply Forall_forall.
  repeat first [ apply Forall_nil_2 | apply Forall_cons_2 ];
    (eexists; split; [reflexivity|]);
    (split; [cbn; lia|]);
    (split; [eexists _, _; split; reflexivity|]);
    apply floats_at_sound; vm_compute; reflexivity.
Defined.

